(** * Release script of the BasicMicro Arduino library: [update.py]

    A shallow embedding of [src/update.py] and the properties of its
    version handling and of its fail-stop orchestration of [git] and [gh].

    Conventions of the embedding.
    - A Python [str] is a [string]; a character is a code point below 256
      ([ascii]), so texts are the Latin-1 range of Unicode.  Whitespace and
      lower-casing follow CPython on that range.
    - A Python [int] is a [Z]; its conversions from and to text have the
      interpreter's default limit of 4300 digits.
    - An exception is a value of [exn]; [SystemExit] is one of them and,
      as in Python, is not an [Exception].
    - Everything outside the script (the file [library.properties], the
      console, the external commands) is a [world] threaded through the
      functions.  The file is the one the script alone writes; it is read
      and written in text mode, with the translation of line ends made
      explicit.
    - Calls of [print] are left out: on a console that can show what is
      printed they change neither the control flow nor the world modelled
      here.
    - The line numbers are those of [src/update.py]. *)

From Stdlib Require Import String Ascii List ZArith NArith Bool Lia.
From Stdlib Require Import DecimalString DecimalZ.
Import ListNotations.

Local Open Scope string_scope.
Local Open Scope list_scope.

(* ===================================================================== *)
(** * Exceptions and results *)
(* ===================================================================== *)

Inductive exn : Type :=
| SystemExit (code : Z)      (* raised by [sys.exit(code)] *)
| ValueError                 (* [int()] on a malformed literal *)
| IndexError                 (* list index out of range *)
| EOFError                   (* [input()] at the end of the console input *)
| FileNotFoundError          (* [open()] of an absent file *)
| ReError                    (* [re.error], a malformed replacement template *)
| SubprocessError.           (* [subprocess.run] itself failed *)

(** [isinstance(e, Exception)]: what [except Exception] catches. *)
Definition is_Exception (e : exn) : bool :=
  match e with
  | SystemExit _ => false
  | _ => true
  end.

Inductive outcome (A : Type) : Type :=
| Ok (a : A)
| Raised (e : exn).
Arguments Ok {A} a.
Arguments Raised {A} e.

Definition obind {A B} (c : outcome A) (k : A -> outcome B) : outcome B :=
  match c with
  | Ok a => k a
  | Raised e => Raised e
  end.

Notation "x <-- c ;; k" := (obind c (fun x => k))
  (at level 61, c at next level, right associativity).

(* ===================================================================== *)
(** * Characters and the [str] methods the script uses *)
(* ===================================================================== *)

Module Str.

(** [Py_UNICODE_ISSPACE] below 256: what [str.strip()] removes and what
    [\s] matches in a [str] pattern. *)
Definition is_space (c : ascii) : bool :=
  let n := N_of_ascii c in
  ((9 <=? n) && (n <=? 13) || (28 <=? n) && (n <=? 32)
   || (n =? 133) || (n =? 160))%N.

(** [str.lower()] on one character below 256. *)
Definition to_lower (c : ascii) : ascii :=
  let n := N_of_ascii c in
  if ((65 <=? n) && (n <=? 90)
      || (192 <=? n) && (n <=? 222) && negb (n =? 215))%N
  then ascii_of_N (n + 32) else c.

Fixpoint lower (s : string) : string :=
  match s with
  | EmptyString => EmptyString
  | String c s' => String (to_lower c) (lower s')
  end.

Definition is_empty (s : string) : bool :=
  match s with EmptyString => true | String _ _ => false end.

Section Strip.
Variable drop : ascii -> bool.

Fixpoint lstrip_with (s : string) : string :=
  match s with
  | EmptyString => EmptyString
  | String c s' => if drop c then lstrip_with s' else s
  end.

Fixpoint rstrip_with (s : string) : string :=
  match s with
  | EmptyString => EmptyString
  | String c s' =>
      let r := rstrip_with s' in
      if drop c && is_empty r then EmptyString else String c r
  end.

Definition strip_with (s : string) : string := rstrip_with (lstrip_with s).

End Strip.

(** [s.strip()] *)
Definition strip : string -> string := strip_with is_space.

(** [s.startswith(p)] *)
Definition startswith (p s : string) : bool := String.prefix p s.

(** [p in s] for strings. *)
Fixpoint contains (p s : string) : bool :=
  String.prefix p s ||
  match s with
  | EmptyString => false
  | String _ s' => contains p s'
  end.

(** [s.split(sep)] for a one-character separator: never the empty list. *)
Fixpoint split (sep : ascii) (s : string) : list string :=
  match s with
  | EmptyString => [EmptyString]
  | String c s' =>
      if Ascii.eqb c sep then EmptyString :: split sep s'
      else match split sep s' with
           | p :: ps => String c p :: ps
           | [] => [String c EmptyString]
           end
  end.

(** [sep.join(parts)] *)
Definition join (sep : string) (parts : list string) : string :=
  String.concat sep parts.

End Str.

(* ===================================================================== *)
(** * [int(str)] and [str(int)] *)
(* ===================================================================== *)

Module PyInt.

Definition is_digit (c : ascii) : bool :=
  let n := N_of_ascii c in ((48 <=? n) && (n <=? 57))%N.

(** The whitespace [int()] skips around a literal: the C [isspace] set,
    and the non-ASCII spaces, which CPython first turns into blanks. *)
Definition is_int_space (c : ascii) : bool :=
  let n := N_of_ascii c in
  ((9 <=? n) && (n <=? 13) || (n =? 32) || (n =? 133) || (n =? 160))%N.

(** Digits with single underscores between them: [1_000] is a literal,
    [_1], [1_] and [1__0] are not.  [prev] tells whether the previous
    character was a digit. *)
Fixpoint well_grouped (prev : bool) (s : string) : bool :=
  match s with
  | EmptyString => prev
  | String c s' =>
      if is_digit c then well_grouped true s'
      else if Ascii.eqb c "_" then prev && well_grouped false s'
      else false
  end.

Fixpoint drop_underscores (s : string) : string :=
  match s with
  | EmptyString => EmptyString
  | String c s' =>
      if Ascii.eqb c "_" then drop_underscores s'
      else String c (drop_underscores s')
  end.

(** [sys.get_int_max_str_digits()]: the interpreter's default limit on
    the number of digits of an integer converted from or to text. *)
Definition max_str_digits : N := 4300.

(** Whether a run of digits is longer than the limit. *)
Definition over_limit (digits : string) : bool :=
  (max_str_digits <? N.of_nat (String.length digits))%N.

Definition magnitude (s : string) : outcome Z :=
  if well_grouped false s then
    let digits := drop_underscores s in
    if over_limit digits then Raised ValueError
    else
      match NilEmpty.uint_of_string digits with
      | Some d => Ok (Z.of_uint d)
      | None => Raised ValueError
      end
  else Raised ValueError.

(** [int(s)] in base ten. *)
Definition int (s : string) : outcome Z :=
  match Str.strip_with is_int_space s with
  | String "+" r => magnitude r
  | String "-" r => n <-- magnitude r ;; Ok (- n)%Z
  | t => magnitude t
  end.

(** The decimal text of [n]. *)
Definition decimal (n : Z) : string := NilZero.string_of_int (Z.to_int n).

(** [str(n)]: the decimal text, unless it has more digits than the
    limit. *)
Definition str (n : Z) : outcome string :=
  if over_limit (decimal (Z.abs n)) then Raised ValueError
  else Ok (decimal n).

End PyInt.

(* ===================================================================== *)
(** * [bump_version] (lines 30-46) *)
(* ===================================================================== *)

(** [l[i]] *)
Definition getitem (l : list string) (i : nat) : outcome string :=
  match nth_error l i with
  | Some x => Ok x
  | None => Raised IndexError
  end.

(** [l[i] = x] *)
Fixpoint setitem (l : list string) (i : nat) (x : string)
  : outcome (list string) :=
  match l, i with
  | [], _ => Raised IndexError
  | _ :: t, O => Ok (x :: t)
  | h :: t, S j => t' <-- setitem t j x ;; Ok (h :: t')
  end.

(** Lines 32-34. *)
Definition split_parts (version : string) : list string :=
  let parts := Str.split "." version in
  if Nat.ltb (length parts) 3
  then parts ++ repeat "0" (3 - length parts)
  else parts.

(** [str(int(parts[i]) + 1)] *)
Definition incremented (parts : list string) (i : nat) : outcome string :=
  p <-- getitem parts i ;;
  n <-- PyInt.int p ;;
  PyInt.str (n + 1).

Definition bump_version (version bump_type : string) : outcome string :=
  let parts := split_parts version in
  parts <--
    (if String.eqb bump_type "major" then
       x <-- incremented parts 0 ;;
       parts <-- setitem parts 0 x ;;
       parts <-- setitem parts 1 "0" ;;
       setitem parts 2 "0"
     else if String.eqb bump_type "minor" then
       x <-- incremented parts 1 ;;
       parts <-- setitem parts 1 x ;;
       setitem parts 2 "0"
     else
       x <-- incremented parts 2 ;;
       setitem parts 2 x) ;;
  Ok (Str.join "." parts).

(* ===================================================================== *)
(** * The documented transitions of a version triple *)
(* ===================================================================== *)

(** The documented transitions. *)
Definition transition (bump_type : string) (t : Z * Z * Z) : Z * Z * Z :=
  let '(major, minor, patch) := t in
  if String.eqb bump_type "major" then (major + 1, 0, 0)%Z
  else if String.eqb bump_type "minor" then (major, minor + 1, 0)%Z
  else (major, minor, patch + 1)%Z.

(** The place in [parts] of the one component [bump_version] reads as a
    number. *)
Definition bumped_index (bump_type : string) : nat :=
  if String.eqb bump_type "major" then 0
  else if String.eqb bump_type "minor" then 1
  else 2.

(* ===================================================================== *)
(** * The world outside the script *)
(* ===================================================================== *)

(** What [subprocess.run] hands back. *)
Record CompletedProcess : Type := {
  returncode : Z;
  stdout : string;
  stderr : string
}.

Inductive platform : Type := Posix | Windows.

Definition LF : ascii := "010"%char.
Definition CR : ascii := "013"%char.

(** [os.linesep] *)
Definition linesep (p : platform) : string :=
  match p with
  | Posix => String LF ""
  | Windows => String CR (String LF "")
  end.

Record world : Type := {
  (** the characters stored in [library.properties], [None] when the file
      is absent *)
  library_properties : option string;
  os : platform;
  (** the lines the user is still to type *)
  console : list string;
  (** the answer of an external command, given the commands run before it;
      [None] when [subprocess.run] raises instead of completing *)
  shell : list string -> string -> option CompletedProcess;
  (** [re]'s reading of a replacement template that holds a backslash:
      [None] for [re.error], otherwise the replacement for a matched text *)
  re_escapes : string -> option (string -> string);
  (** the commands run so far, oldest first *)
  issued : list string
}.

Definition set_library_properties (w : world) (f : option string) : world :=
  {| library_properties := f; os := os w; console := console w;
     shell := shell w; re_escapes := re_escapes w; issued := issued w |}.

Definition set_console (w : world) (c : list string) : world :=
  {| library_properties := library_properties w; os := os w; console := c;
     shell := shell w; re_escapes := re_escapes w; issued := issued w |}.

Definition set_issued (w : world) (l : list string) : world :=
  {| library_properties := library_properties w; os := os w;
     console := console w; shell := shell w; re_escapes := re_escapes w;
     issued := l |}.

(** A computation of the script: it runs in a world, and returns or
    raises. *)
Definition M (A : Type) : Type := world -> outcome A * world.

Definition ret {A} (a : A) : M A := fun w => (Ok a, w).

Definition raise {A} (e : exn) : M A := fun w => (Raised e, w).

Definition bind {A B} (c : M A) (k : A -> M B) : M B :=
  fun w =>
    match c w with
    | (Ok a, w') => k a w'
    | (Raised e, w') => (Raised e, w')
    end.

Notation "x <- c ;; k" := (bind c (fun x => k))
  (at level 61, c at next level, right associativity).

Definition lift {A} (r : outcome A) : M A := fun w => (r, w).

(** [try: c  except <caught>: h] *)
Definition try_except {A} (c : M A) (caught : exn -> bool) (h : M A) : M A :=
  fun w =>
    match c w with
    | (Ok a, w') => (Ok a, w')
    | (Raised e, w') => if caught e then h w' else (Raised e, w')
    end.

(** the bare [except:] *)
Definition anything (e : exn) : bool := true.

Definition is_FileNotFoundError (e : exn) : bool :=
  match e with FileNotFoundError => true | _ => false end.

(** [sys.exit(code)] *)
Definition sys_exit {A} (code : Z) : M A := raise (SystemExit code).

(** [input(prompt)]: the next line of the console, without its newline. *)
Definition input (prompt : string) : M string :=
  fun w =>
    match console w with
    | [] => (Raised EOFError, w)
    | line :: rest => (Ok line, set_console w rest)
    end.

(** [subprocess.run(cmd, shell=True, capture_output=True, text=True)] *)
Definition subprocess_run (cmd : string) : M CompletedProcess :=
  fun w =>
    let w' := set_issued w (issued w ++ [cmd]) in
    match shell w (issued w) cmd with
    | Some result => (Ok result, w')
    | None => (Raised SubprocessError, w')
    end.

(* --------------------------------------------------------------------- *)
(** ** The file, read and written in text mode *)

Module TextIO.

(** Reading: universal newlines, [\r\n] and [\r] come back as [\n]. *)
Fixpoint decode_newlines (raw : string) : string :=
  match raw with
  | EmptyString => EmptyString
  | String c rest =>
      if Ascii.eqb c CR then
        match rest with
        | String d rest' =>
            if Ascii.eqb d LF then String LF (decode_newlines rest')
            else String LF (decode_newlines rest)
        | EmptyString => String LF EmptyString
        end
      else String c (decode_newlines rest)
  end.

(** Writing: every [\n] goes out as [os.linesep]. *)
Fixpoint encode_newlines (p : platform) (text : string) : string :=
  match text with
  | EmptyString => EmptyString
  | String c rest =>
      if Ascii.eqb c LF then (linesep p ++ encode_newlines p rest)%string
      else String c (encode_newlines p rest)
  end.

(** [os.path.exists('library.properties')] *)
Definition path_exists : M bool :=
  fun w =>
    match library_properties w with
    | Some _ => (Ok true, w)
    | None => (Ok false, w)
    end.

(** [with open('library.properties', 'r') as f: f.read()] *)
Definition read_text : M string :=
  fun w =>
    match library_properties w with
    | Some raw => (Ok (decode_newlines raw), w)
    | None => (Raised FileNotFoundError, w)
    end.

(** [with open('library.properties', 'w') as f: f.write(text)] *)
Definition write_text (text : string) : M unit :=
  fun w =>
    (Ok tt, set_library_properties w (Some (encode_newlines (os w) text))).

End TextIO.

(* --------------------------------------------------------------------- *)
(** ** The pattern [version=[^\s\n\r]+] *)

Module Re.

(** The rest of [s] after the literal [lit], if [s] starts with it. *)
Fixpoint after_literal (lit s : string) : option string :=
  match lit, s with
  | EmptyString, _ => Some s
  | String a lit', String b s' =>
      if Ascii.eqb a b then after_literal lit' s' else None
  | String _ _, EmptyString => None
  end.

(** [[^\s\n\r]]: [\n] and [\r] are whitespace already. *)
Definition in_class (c : ascii) : bool :=
  negb (Str.is_space c || Ascii.eqb c LF || Ascii.eqb c CR).

(** The longest run of class characters at the head of [s], and what
    follows it: the greedy [+] with nothing after it never gives back. *)
Fixpoint span_class (s : string) : string * string :=
  match s with
  | EmptyString => (EmptyString, EmptyString)
  | String c s' =>
      if in_class c then
        let '(tok, rest) := span_class s' in (String c tok, rest)
      else (EmptyString, s)
  end.

(** A match starting at the head of [s]: the token and the rest. *)
Definition match_here (s : string) : option (string * string) :=
  match after_literal "version=" s with
  | Some r =>
      let '(tok, rest) := span_class r in
      if Str.is_empty tok then None else Some (tok, rest)
  | None => None
  end.

(** [re.search(r'version=([^\s\n\r]+)', s)], then [group(1)]. *)
Fixpoint search (s : string) : option string :=
  match match_here s with
  | Some (tok, _) => Some tok
  | None =>
      match s with
      | EmptyString => None
      | String _ s' => search s'
      end
  end.

(** The tokens of the successive matches, left to right, none
    overlapping another; [skip] counts the characters of the current
    match still to pass over. *)
Fixpoint tokens_from (skip : nat) (s : string) : list string :=
  match s with
  | EmptyString => []
  | String _ s' =>
      match skip with
      | S k => tokens_from k s'
      | O =>
          match match_here s with
          | Some (tok, _) => tok :: tokens_from (7 + String.length tok) s'
          | None => tokens_from 0 s'
          end
      end
  end.

Definition tokens (s : string) : list string := tokens_from 0 s.

(** [re.sub(r'version=[^\s\n\r]+', repl, s)] with the replacement given
    as a function of the matched text. *)
Fixpoint sub_from (repl : string -> string) (skip : nat) (s : string)
  : string :=
  match s with
  | EmptyString => EmptyString
  | String c s' =>
      match skip with
      | S k => sub_from repl k s'
      | O =>
          match match_here s with
          | Some (tok, _) =>
              (repl ("version=" ++ tok)
               ++ sub_from repl (7 + String.length tok) s')%string
          | None => String c (sub_from repl 0 s')
          end
      end
  end.

Fixpoint has_backslash (s : string) : bool :=
  match s with
  | EmptyString => false
  | String c s' => Ascii.eqb c "\"%char || has_backslash s'
  end.

(** [re.sub] with a template: the template is read first, whether or not
    anything matches; one without a backslash stands for itself. *)
Definition sub (template s : string) : M string :=
  fun w =>
    if has_backslash template then
      match re_escapes w template with
      | Some repl => (Ok (sub_from repl 0 s), w)
      | None => (Raised ReError, w)
      end
    else (Ok (sub_from (fun _ => template) 0 s), w).

End Re.

(* ===================================================================== *)
(** * The functions of [update.py] *)
(* ===================================================================== *)

Local Open Scope string_scope.

(** Lines 7-13. *)
Definition run_command (cmd : string) (check : bool) : M string :=
  result <- subprocess_run cmd ;;
  if check && negb (Z.eqb (returncode result) 0) then sys_exit 1
  else ret (Str.strip (stdout result)).

(** Lines 15-28. *)
Definition get_current_version : M string :=
  found <- try_except
             (content <- TextIO.read_text ;;
              ret (Re.search content))
             is_FileNotFoundError
             (sys_exit 1) ;;
  match found with
  | Some version => ret version
  | None => sys_exit 1
  end.

(** Lines 48-70. *)
Definition update_version_in_library_properties (new_version : string)
  : M bool :=
  try_except
    (content <- TextIO.read_text ;;
     new_content <- Re.sub ("version=" ++ new_version) content ;;
     if negb (String.eqb new_content content) then
       _ <- TextIO.write_text new_content ;;
       ret true
     else ret false)
    is_FileNotFoundError
    (ret false).

(** Lines 74-81. *)
Definition get_yes_no (prompt : string) (default : bool) : M bool :=
  let default_str := if default then "Y/n" else "y/N" in
  line <- input (prompt ++ " [" ++ default_str ++ "]: ") ;;
  let response := Str.lower (Str.strip line) in
  if String.eqb response "" then ret default
  else ret (Str.startswith "y" response).

Definition dquote : string := String "034"%char "".

(** Lines 83-114. *)
Definition commit_and_push_changes (commit_message : string) : M bool :=
  try_except
    (status <- run_command "git status --porcelain" false ;;
     if Str.is_empty status then ret false
     else
       _ <- run_command "git status --short" false ;;
       _ <- run_command "git add ." true ;;
       _ <- run_command
              ("git commit -m " ++ dquote ++ commit_message ++ dquote) true ;;
       _ <- run_command "git push upstream main" true ;;
       _ <- run_command "git push origin main" true ;;
       ret true)
    is_Exception
    (ret false).

Definition release_command (version release_notes : string) : string :=
  let tag := "v" ++ version in
  let release_cmd :=
    "gh release create " ++ tag ++ " --title " ++ dquote ++ "Release "
    ++ version ++ dquote ++ " --repo basicmicrosupport/basicmicro_arduino" in
  if negb (Str.is_empty release_notes)
  then release_cmd ++ " --notes " ++ dquote ++ release_notes ++ dquote
  else release_cmd ++ " --generate-notes".

(** Lines 116-139. *)
Definition create_github_release (version release_notes : string) : M bool :=
  try_except
    (_ <- run_command (release_command version release_notes) true ;;
     ret true)
    is_Exception
    (ret false).

Definition UPSTREAM_URL : string :=
  "https://github.com/acidtech/basicmicro_arduino".
Definition ORIGIN_URL : string :=
  "https://github.com/basicmicrosupport/basicmicro_arduino".

(** Lines 141-172. *)
Definition setup_remotes : M bool :=
  try_except
    (remotes_output <- run_command "git remote -v" false ;;
     let has_upstream := Str.contains "upstream" remotes_output in
     let has_origin := Str.contains "origin" remotes_output in
     _ <- (if negb has_upstream
           then run_command ("git remote add upstream " ++ UPSTREAM_URL) true
           else ret "") ;;
     _ <- (if negb has_origin
           then run_command ("git remote add origin " ++ ORIGIN_URL) true
           else ret "") ;;
     ret true)
    is_Exception
    (ret false).

(** Lines 174-194. *)
Definition check_arduino_library_format : M bool :=
  present <- TextIO.path_exists ;;
  let issues :=
    if present then []
    else ["Missing required file: library.properties"] in
  match issues with
  | _ :: _ =>
      go_on <- get_yes_no "Continue anyway?" false ;;
      if negb go_on then ret false else ret true
  | [] => ret true
  end.

(* --------------------------------------------------------------------- *)
(** ** [main] (lines 196-260), cut at its steps

    Each definition is [main] from one of its lines to its end. *)

(** Lines 249-260: the release. *)
Definition main_from_release (new_version : string) : M unit :=
  line <- input "Release notes (optional): " ;;
  let release_notes := Str.strip line in
  _ <- create_github_release new_version release_notes ;;
  ret tt.

(** Lines 239-260: the commit and the pushes, then the release. *)
Definition main_from_commit (new_version : string) : M unit :=
  line <- input ("Commit message [Bump version to " ++ new_version ++ "]: ") ;;
  let commit_message := Str.strip line in
  let commit_message :=
    if Str.is_empty commit_message
    then "Bump version to " ++ new_version else commit_message in
  pushed <- commit_and_push_changes commit_message ;;
  if negb pushed then sys_exit 1
  else main_from_release new_version.

(** Lines 232-260: the new version is written, then committed. *)
Definition main_from_write (new_version : string) : M unit :=
  updated <- update_version_in_library_properties new_version ;;
  if updated then main_from_commit new_version
  else sys_exit 1.

(** Lines 228-260: the confirmation of the new version. *)
Definition main_from_confirmation (new_version : string) : M unit :=
  go_on <- get_yes_no "Continue with this version?" true ;;
  if negb go_on then sys_exit 0
  else main_from_write new_version.

(** Lines 219-260. *)
Definition main_from_version : M unit :=
  current_version <- get_current_version ;;
  line <- input "Bump type (major/minor/patch) [patch]: " ;;
  let bump_type :=
    if Str.is_empty (Str.strip line) then "patch" else Str.strip line in
  new_version <- lift (bump_version current_version bump_type) ;;
  main_from_confirmation new_version.

Definition main : M unit :=
  _ <- try_except (run_command "git rev-parse --git-dir" true)
         anything (sys_exit 1) ;;
  well_formed <- check_arduino_library_format ;;
  if negb well_formed then sys_exit 1
  else
    _ <- setup_remotes ;;
    main_from_version.

(** The exit status of the interpreter: 0 when [main] returns, the code
    of a [SystemExit], 1 after the traceback of any other exception. *)
Definition exit_status {A} (r : outcome A) : Z :=
  match r with
  | Ok _ => 0%Z
  | Raised (SystemExit code) => code
  | Raised _ => 1%Z
  end.

(** [python update.py] in the world [w]: exit status and final world. *)
Definition run_script (w : world) : Z * world :=
  let '(r, w') := main w in (exit_status r, w').

(** The commands [commit_and_push_changes] runs when nothing stops it,
    in the order of lines 87-107. *)
Definition push_script (commit_message : string) : list string :=
  [ "git status --porcelain";
    "git status --short";
    "git add .";
    "git commit -m " ++ dquote ++ commit_message ++ dquote;
    "git push upstream main";
    "git push origin main" ].

(** An answer that says no in so many words: not empty once stripped,
    and not starting with [y] or [Y]. *)
Definition declines (line : string) : bool :=
  match Str.strip line with
  | EmptyString => false
  | String c _ => negb (Ascii.eqb c "y" || Ascii.eqb c "Y")
  end.

(* ===================================================================== *)
(** * Worlds to run the script in *)
(* ===================================================================== *)

Module Scenario.

Definition completed (code : Z) (out err : string) : CompletedProcess :=
  {| returncode := code; stdout := out; stderr := err |}.

(** The answer to [cmd] in a table of answers; a command the table does
    not list succeeds and prints nothing. *)
Fixpoint answer (table : list (string * CompletedProcess)) (cmd : string)
  : CompletedProcess :=
  match table with
  | [] => completed 0 "" ""
  | (c, r) :: table' => if String.eqb c cmd then r else answer table' cmd
  end.

(** A world on a POSIX system whose commands answer from a table and
    whose [re] rejects every template with a backslash. *)
Definition posix_world (file : option string) (typed : list string)
    (table : list (string * CompletedProcess)) : world :=
  {| library_properties := file;
     os := Posix;
     console := typed;
     shell := fun _ cmd => Some (answer table cmd);
     re_escapes := fun _ => None;
     issued := [] |}.

(** The same world on Windows, where [os.linesep] is [\r\n]. *)
Definition on_windows (w : world) : world :=
  {| library_properties := library_properties w;
     os := Windows;
     console := console w;
     shell := shell w;
     re_escapes := re_escapes w;
     issued := issued w |}.

Definition lf : string := String LF "".
Definition crlf : string := String CR (String LF "").

(** A working tree with a change to commit. *)
Definition dirty_tree : list (string * CompletedProcess) :=
  [("git status --porcelain", completed 0 " M library.properties" "")].

(** The remotes are there already. *)
Definition remotes_listed : list (string * CompletedProcess) :=
  [("git remote -v",
    completed 0 "origin https://github.com/basicmicrosupport/basicmicro_arduino (fetch) upstream https://github.com/acidtech/basicmicro_arduino (fetch)" "")].

End Scenario.
(* ===================================================================== *)
(** * Facts on strings *)
(* ===================================================================== *)

Module StrFacts.
Import Str.
Local Open Scope string_scope.

Fixpoint all_chars (P : ascii -> bool) (s : string) : bool :=
  match s with
  | EmptyString => true
  | String c s' => P c && all_chars P s'
  end.

Lemma append_nil_r (s : string) : s ++ "" = s.
Proof. induction s as [|c s IH]; simpl; [reflexivity | now rewrite IH]. Qed.

Lemma append_assoc (a b c : string) : (a ++ b) ++ c = a ++ (b ++ c).
Proof. induction a as [|x a IH]; simpl; [reflexivity | now rewrite IH]. Qed.

Lemma length_append (a b : string) :
  String.length (a ++ b) = String.length a + String.length b.
Proof. induction a as [|x a IH]; simpl; [reflexivity | now rewrite IH]. Qed.

Lemma all_chars_append P a b :
  all_chars P (a ++ b) = all_chars P a && all_chars P b.
Proof.
  induction a as [|x a IH]; simpl; [reflexivity|].
  now rewrite IH, andb_assoc.
Qed.

Lemma all_chars_weaken (P Q : ascii -> bool) s :
  (forall c, P c = true -> Q c = true) ->
  all_chars P s = true -> all_chars Q s = true.
Proof.
  intros HPQ. induction s as [|c s IH]; simpl; [reflexivity|].
  intros H. apply andb_true_iff in H as [Hc Hs].
  now rewrite (HPQ _ Hc), IH.
Qed.

(** Stripping leaves alone a text with nothing to strip. *)
Lemma strip_with_none drop s :
  all_chars (fun c => negb (drop c)) s = true -> strip_with drop s = s.
Proof.
  intros H. unfold strip_with.
  assert (Hl : lstrip_with drop s = s).
  { destruct s as [|c s]; simpl in *; [reflexivity|].
    apply andb_true_iff in H as [Hc _].
    apply negb_true_iff in Hc. now rewrite Hc. }
  rewrite Hl. clear Hl.
  induction s as [|c s IH]; simpl in *; [reflexivity|].
  apply andb_true_iff in H as [Hc Hs].
  apply negb_true_iff in Hc. rewrite Hc, (IH Hs). reflexivity.
Qed.

Definition not_sep (sep c : ascii) : bool := negb (Ascii.eqb c sep).

Lemma split_not_nil sep s : split sep s <> [].
Proof.
  destruct s as [|c s]; simpl; [discriminate|].
  destruct (Ascii.eqb c sep); [discriminate|].
  destruct (split sep s); discriminate.
Qed.

(** No part of a split holds the separator. *)
Lemma split_parts_clean sep s :
  Forall (fun p => all_chars (not_sep sep) p = true) (split sep s).
Proof.
  induction s as [|c s IH]; simpl.
  - repeat constructor.
  - destruct (Ascii.eqb c sep) eqn:E.
    + constructor; [reflexivity | exact IH].
    + destruct (split sep s) as [|p ps].
      * constructor; [|constructor]. simpl. unfold not_sep. now rewrite E.
      * inversion IH as [|? ? Hp Hps]; subst.
        constructor; [|exact Hps].
        simpl. unfold not_sep at 1. now rewrite E, Hp.
Qed.

Lemma split_clean sep s :
  all_chars (not_sep sep) s = true -> split sep s = [s].
Proof.
  induction s as [|c s IH]; simpl; [reflexivity|].
  intros H. apply andb_true_iff in H as [Hc Hs].
  unfold not_sep in Hc. apply negb_true_iff in Hc.
  now rewrite Hc, (IH Hs).
Qed.

Lemma split_append sep p rest :
  all_chars (not_sep sep) p = true ->
  split sep (p ++ String sep rest) = p :: split sep rest.
Proof.
  induction p as [|c p IH]; simpl; intros H.
  - now rewrite Ascii.eqb_refl.
  - apply andb_true_iff in H as [Hc Hp].
    unfold not_sep in Hc. apply negb_true_iff in Hc.
    now rewrite Hc, (IH Hp).
Qed.

(** Splitting a join of separator-free parts gives the parts back. *)
Lemma split_join sep p ps :
  Forall (fun q => all_chars (not_sep sep) q = true) (p :: ps) ->
  split sep (join (String sep "") (p :: ps)) = p :: ps.
Proof.
  revert p. induction ps as [|q ps IH]; intros p H.
  - inversion H; subst. simpl. now apply split_clean.
  - inversion H as [|? ? Hp Hps]; subst.
    change (join (String sep "") (p :: q :: ps))
      with (p ++ String sep (join (String sep "") (q :: ps))).
    rewrite (split_append sep p _ Hp).
    now rewrite (IH q Hps).
Qed.

End StrFacts.

(* ===================================================================== *)
(** * [int(str(n)) = n] *)
(* ===================================================================== *)

Module PyIntFacts.
Import Str StrFacts PyInt.
Local Open Scope string_scope.

Lemma digits_of_uint d :
  all_chars is_digit (NilEmpty.string_of_uint d) = true.
Proof. induction d; simpl; auto. Qed.

Lemma digit_not_int_space c :
  is_digit c = true -> negb (is_int_space c) = true.
Proof.
  destruct c as [[|] [|] [|] [|] [|] [|] [|] [|]]; vm_compute; congruence.
Qed.

Lemma digit_not_dot c :
  is_digit c = true -> not_sep "." c = true.
Proof.
  destruct c as [[|] [|] [|] [|] [|] [|] [|] [|]]; vm_compute; congruence.
Qed.

Lemma digit_cases c :
  is_digit c = true ->
  Ascii.eqb c "_" = false /\ Ascii.eqb c "+" = false
  /\ Ascii.eqb c "-" = false.
Proof.
  destruct c as [[|] [|] [|] [|] [|] [|] [|] [|]]; vm_compute;
    intuition congruence.
Qed.

Lemma well_grouped_digits prev s :
  all_chars is_digit s = true ->
  well_grouped prev s = prev || negb (is_empty s).
Proof.
  revert prev. induction s as [|c s IH]; simpl; intros prev H.
  - now rewrite orb_false_r.
  - apply andb_true_iff in H as [Hc Hs].
    rewrite Hc, (IH _ Hs). simpl. now rewrite orb_true_r.
Qed.

Lemma drop_underscores_digits s :
  all_chars is_digit s = true -> drop_underscores s = s.
Proof.
  induction s as [|c s IH]; simpl; [reflexivity|].
  intros H. apply andb_true_iff in H as [Hc Hs].
  destruct (digit_cases c Hc) as (-> & _).
  now rewrite (IH Hs).
Qed.

Lemma string_of_uint_nonempty d :
  d <> Decimal.Nil -> is_empty (NilEmpty.string_of_uint d) = false.
Proof. destruct d; simpl; congruence. Qed.

(** A non-empty run of digits within the limit is read as the number it
    spells. *)
Lemma magnitude_of_uint d :
  d <> Decimal.Nil ->
  over_limit (NilEmpty.string_of_uint d) = false ->
  magnitude (NilEmpty.string_of_uint d) = Ok (Z.of_uint d).
Proof.
  intros Hd Hl. unfold magnitude.
  rewrite (well_grouped_digits _ _ (digits_of_uint d)).
  rewrite (string_of_uint_nonempty d Hd). cbn [negb orb].
  rewrite (drop_underscores_digits _ (digits_of_uint d)). cbv zeta.
  now rewrite Hl, NilEmpty.usu.
Qed.

Lemma int_of_digits d :
  d <> Decimal.Nil ->
  over_limit (NilEmpty.string_of_uint d) = false ->
  int (NilEmpty.string_of_uint d) = Ok (Z.of_uint d).
Proof.
  intros Hd Hl. unfold int.
  rewrite strip_with_none.
  2:{ apply (all_chars_weaken is_digit); [apply digit_not_int_space|].
      apply digits_of_uint. }
  pose proof (digits_of_uint d) as Hall.
  pose proof (magnitude_of_uint d Hd Hl) as Hm.
  destruct (NilEmpty.string_of_uint d) as [|c s] eqn:E.
  - exact Hm.
  - cbn [all_chars] in Hall. apply andb_true_iff in Hall as [Hc _].
    destruct (digit_cases c Hc) as (_ & Hplus & Hminus).
    destruct c as [[|] [|] [|] [|] [|] [|] [|] [|]];
      try exact Hm; vm_compute in Hplus, Hminus; discriminate.
Qed.

Lemma int_of_neg_digits d :
  d <> Decimal.Nil ->
  over_limit (NilEmpty.string_of_uint d) = false ->
  int (String "-" (NilEmpty.string_of_uint d)) = Ok (- Z.of_uint d)%Z.
Proof.
  intros Hd Hl. unfold int.
  rewrite strip_with_none.
  2:{ cbn [all_chars]. apply andb_true_iff. split; [reflexivity|].
      apply (all_chars_weaken is_digit); [apply digit_not_int_space|].
      apply digits_of_uint. }
  now rewrite (magnitude_of_uint d Hd Hl).
Qed.

Lemma pos_to_uint_nonnil p : Pos.to_uint p <> Decimal.Nil.
Proof.
  intros H. pose proof (DecimalPos.Unsigned.of_to p) as E.
  rewrite H in E. discriminate.
Qed.

Lemma nilzero_nonnil d :
  d <> Decimal.Nil -> NilZero.string_of_uint d = NilEmpty.string_of_uint d.
Proof. destruct d; simpl; congruence. Qed.

(** The decimal text of a number, by its sign. *)
Lemma decimal_pos p :
  decimal (Z.pos p) = NilEmpty.string_of_uint (Pos.to_uint p).
Proof.
  unfold decimal. cbn [Z.to_int NilZero.string_of_int].
  apply nilzero_nonnil, pos_to_uint_nonnil.
Qed.

Lemma decimal_neg p : decimal (Z.neg p) = String "-" (decimal (Z.pos p)).
Proof.
  unfold decimal. cbn [Z.to_int NilZero.string_of_int]. reflexivity.
Qed.

(** Reading back the decimal text of a number within the limit. *)
Theorem int_decimal (n : Z) :
  over_limit (decimal (Z.abs n)) = false -> int (decimal n) = Ok n.
Proof.
  destruct n as [|p|p]; cbn [Z.abs].
  - intros _. reflexivity.
  - rewrite decimal_pos. intros Hl.
    rewrite (int_of_digits _ (pos_to_uint_nonnil p) Hl). f_equal.
    change (Z.of_uint (Pos.to_uint p)) with (Z.of_int (Z.to_int (Z.pos p))).
    apply DecimalZ.of_to.
  - rewrite decimal_neg, decimal_pos. intros Hl.
    rewrite (int_of_neg_digits _ (pos_to_uint_nonnil p) Hl). f_equal.
    change (- Z.of_uint (Pos.to_uint p))%Z
      with (Z.of_int (Z.to_int (Z.neg p))).
    apply DecimalZ.of_to.
Qed.

Lemma str_ok (n : Z) (s : string) :
  str n = Ok s -> s = decimal n /\ over_limit (decimal (Z.abs n)) = false.
Proof.
  unfold str. destruct (over_limit (decimal (Z.abs n))); [discriminate|].
  now intros [= <-].
Qed.

Lemma str_within (n : Z) :
  over_limit (decimal (Z.abs n)) = false -> str n = Ok (decimal n).
Proof. intros H. unfold str. now rewrite H. Qed.

(** [str] raises nothing but [ValueError]. *)
Lemma str_cases (n : Z) :
  (str n = Ok (decimal n) /\ over_limit (decimal (Z.abs n)) = false)
  \/ (str n = Raised ValueError /\ over_limit (decimal (Z.abs n)) = true).
Proof. unfold str. destruct (over_limit (decimal (Z.abs n))); auto. Qed.

(** Reading back what [str] printed. *)
Theorem int_str (n : Z) (s : string) : str n = Ok s -> int s = Ok n.
Proof.
  intros H. destruct (str_ok n s H) as [-> Hl]. now apply int_decimal.
Qed.

(** The decimal text of a number holds no dot. *)
Lemma decimal_no_dot (n : Z) : all_chars (not_sep ".") (decimal n) = true.
Proof.
  assert (H : forall d, all_chars (not_sep ".") (NilZero.string_of_uint d) = true).
  { intros d. unfold NilZero.string_of_uint.
    destruct d; try reflexivity;
      apply (all_chars_weaken is_digit); try apply digit_not_dot;
      apply digits_of_uint. }
  unfold decimal. destruct (Z.to_int n); simpl; [apply H|].
  apply H.
Qed.

End PyIntFacts.

(* ===================================================================== *)
(** * Facts on the pattern and on the text-mode file *)
(* ===================================================================== *)

Module ReFacts.
Import Str StrFacts Re.
Local Open Scope string_scope.

Fixpoint drop (n : nat) (s : string) : string :=
  match n, s with
  | O, _ => s
  | S k, String _ s' => drop k s'
  | S _, EmptyString => EmptyString
  end.

(** Where a run of class characters may stop: at the end of the text or
    before a character outside the class. *)
Definition boundary (s : string) : bool :=
  match s with
  | EmptyString => true
  | String c _ => negb (in_class c)
  end.

(** Whether a match starts at the head of [s]. *)
Definition is_match (s : string) : bool :=
  match after_literal "version=" s with
  | Some (String a _) => in_class a
  | _ => false
  end.

Lemma drop_append a b : drop (String.length a) (a ++ b) = b.
Proof. induction a as [|c a IH]; simpl; [now destruct b | exact IH]. Qed.

Lemma after_literal_spec lit s r :
  after_literal lit s = Some r -> s = lit ++ r.
Proof.
  revert s. induction lit as [|a lit IH]; intros s H; simpl in *.
  - now injection H as ->.
  - destruct s as [|b s]; [discriminate|].
    destruct (Ascii.eqb_spec a b) as [->|]; [|discriminate].
    now rewrite (IH _ H).
Qed.

Lemma after_literal_append lit r : after_literal lit (lit ++ r) = Some r.
Proof.
  induction lit as [|a lit IH]; simpl; [reflexivity|].
  now rewrite Ascii.eqb_refl.
Qed.

Lemma span_class_spec s tok rest :
  span_class s = (tok, rest) ->
  s = tok ++ rest /\ all_chars in_class tok = true /\ boundary rest = true.
Proof.
  revert tok rest. induction s as [|c s IH]; intros tok rest H; simpl in H.
  - injection H as <- <-. auto.
  - destruct (in_class c) eqn:Ec.
    + destruct (span_class s) as [t r]. injection H as <- <-.
      destruct (IH t r eq_refl) as (-> & Ht & Hr).
      simpl. rewrite Ec, Ht. auto.
    + injection H as <- <-. simpl. rewrite Ec. auto.
Qed.

Lemma span_class_run tok rest :
  all_chars in_class tok = true -> boundary rest = true ->
  span_class (tok ++ rest) = (tok, rest).
Proof.
  intros Ht Hr. induction tok as [|c tok IH]; simpl in *.
  - destruct rest as [|d rest]; [reflexivity|].
    simpl in Hr. apply negb_true_iff in Hr. simpl. now rewrite Hr.
  - apply andb_true_iff in Ht as [Hc Ht]. now rewrite Hc, (IH Ht).
Qed.

(** What a match at the head of [s] says of [s]. *)
Lemma match_here_spec s tok rest :
  match_here s = Some (tok, rest) ->
  s = "version=" ++ tok ++ rest
  /\ all_chars in_class tok = true
  /\ is_empty tok = false
  /\ boundary rest = true.
Proof.
  unfold match_here. intros H.
  destruct (after_literal "version=" s) as [r|] eqn:E; [|discriminate].
  apply after_literal_spec in E.
  destruct (span_class r) as [t r'] eqn:Es.
  destruct (is_empty t) eqn:Et; [discriminate|].
  injection H as <- <-.
  destruct (span_class_spec _ _ _ Es) as (-> & Ht & Hr).
  auto.
Qed.

Lemma match_here_run tok rest :
  all_chars in_class tok = true -> is_empty tok = false ->
  boundary rest = true ->
  match_here ("version=" ++ tok ++ rest) = Some (tok, rest).
Proof.
  intros Ht He Hr. unfold match_here.
  rewrite after_literal_append, (span_class_run _ _ Ht Hr).
  now rewrite He.
Qed.

Lemma match_here_is_match s :
  match_here s = None <-> is_match s = false.
Proof.
  unfold match_here, is_match.
  destruct (after_literal "version=" s) as [r|]; [|tauto].
  destruct r as [|a r]; simpl; [tauto|].
  destruct (in_class a); [|tauto].
  destruct (span_class r); simpl. split; discriminate.
Qed.

(** Whether a match starts before a [version=] of the text does not
    depend on the token that follows that [version=]. *)
Lemma is_match_local c u X Y :
  is_match (String c u ++ "version=" ++ X)
  = is_match (String c u ++ "version=" ++ Y).
Proof.
  unfold is_match.
  destruct u as [|c2 [|c3 [|c4 [|c5 [|c6 [|c7 [|c8 [|c9 u]]]]]]]];
    cbn -[Ascii.eqb in_class];
    repeat match goal with
      | |- context [Ascii.eqb ?a ?b] => destruct (Ascii.eqb a b)
      end;
    reflexivity.
Qed.

(* --------------------------------------------------------------------- *)
(** ** The scan resumes after a match *)

Lemma sub_from_drop repl n s :
  sub_from repl n s = sub_from repl 0 (drop n s).
Proof.
  revert n. induction s as [|c s IH]; intros [|n]; try reflexivity.
  simpl. apply IH.
Qed.

Lemma tokens_from_drop n s : tokens_from n s = tokens_from 0 (drop n s).
Proof.
  revert n. induction s as [|c s IH]; intros [|n]; try reflexivity.
  simpl. apply IH.
Qed.

Lemma sub_match repl s tok rest :
  match_here s = Some (tok, rest) ->
  sub_from repl 0 s = repl ("version=" ++ tok) ++ sub_from repl 0 rest.
Proof.
  intros H. destruct (match_here_spec _ _ _ H) as (E & _).
  rewrite E in H |- *.
  change ("version=" ++ tok ++ rest)
    with (String "v" ("ersion=" ++ tok ++ rest)) in *.
  cbn [sub_from]. rewrite H. f_equal.
  rewrite sub_from_drop. cbn [drop Nat.add append].
  now rewrite drop_append.
Qed.

Lemma tokens_match s tok rest :
  match_here s = Some (tok, rest) -> tokens s = tok :: tokens rest.
Proof.
  intros H. destruct (match_here_spec _ _ _ H) as (E & _).
  unfold tokens. rewrite E in H |- *.
  change ("version=" ++ tok ++ rest)
    with (String "v" ("ersion=" ++ tok ++ rest)) in *.
  cbn [tokens_from]. rewrite H. f_equal.
  rewrite tokens_from_drop. cbn [drop Nat.add append].
  now rewrite drop_append.
Qed.

Lemma sub_no_match repl c s :
  match_here (String c s) = None ->
  sub_from repl 0 (String c s) = String c (sub_from repl 0 s).
Proof. intros H. cbn [sub_from]. now rewrite H. Qed.

Lemma tokens_no_match c s :
  match_here (String c s) = None -> tokens (String c s) = tokens s.
Proof. intros H. unfold tokens. cbn [tokens_from]. now rewrite H. Qed.

Lemma search_no_match c s :
  match_here (String c s) = None -> search (String c s) = search s.
Proof. intros H. cbn [search]. now rewrite H. Qed.

Lemma search_match s tok rest :
  match_here s = Some (tok, rest) -> search s = Some tok.
Proof. intros H. destruct s; cbn [search]; now rewrite H. Qed.

(** Induction along the scan of a text: a character that starts no match
    is passed, a match is passed whole. *)
Lemma scan_ind (P : string -> Prop) :
  P "" ->
  (forall c s, match_here (String c s) = None -> P s -> P (String c s)) ->
  (forall s tok rest, match_here s = Some (tok, rest) -> P rest -> P s) ->
  forall s, P s.
Proof.
  intros Hnil Hchar Hmatch s.
  remember (String.length s) as n eqn:En.
  revert s En. induction n as [n IH] using lt_wf_ind. intros s En.
  destruct (match_here s) as [[tok rest]|] eqn:E.
  - apply (Hmatch s tok rest E).
    apply (IH (String.length rest)); [|reflexivity].
    destruct (match_here_spec _ _ _ E) as (-> & _).
    subst n. rewrite !length_append. simpl. lia.
  - destruct s as [|c s]; [exact Hnil|].
    apply (Hchar c s E). apply (IH (String.length s)); [|reflexivity].
    subst n. simpl. lia.
Qed.

(** A text after a match starts no match at once: it is empty or starts
    outside the class, and [v] is in the class. *)
Lemma boundary_no_match s : boundary s = true -> match_here s = None.
Proof.
  intros H. apply match_here_is_match. unfold is_match.
  destruct s as [|c s]; [reflexivity|].
  simpl in H. apply negb_true_iff in H. cbn -[Ascii.eqb in_class].
  destruct (Ascii.eqb_spec "v" c) as [<-|]; [|reflexivity].
  vm_compute in H. discriminate.
Qed.

Lemma boundary_sub repl s :
  boundary s = true -> boundary (sub_from repl 0 s) = true.
Proof.
  intros H. pose proof (boundary_no_match s H) as E.
  destruct s as [|c s]; [reflexivity|].
  now rewrite (sub_no_match repl c s E).
Qed.

(** Two runs of the class that stop at a boundary and spell the same text
    are the same run. *)
Lemma class_run_unique a b x y :
  all_chars in_class a = true -> all_chars in_class b = true ->
  boundary x = true -> boundary y = true ->
  a ++ x = b ++ y -> a = b /\ x = y.
Proof.
  revert b. induction a as [|c a IH]; intros b Ha Hb Hx Hy E.
  - destruct b as [|d b]; [auto|]. simpl in *. subst x.
    apply andb_true_iff in Hb as [Hd _]. simpl in Hx.
    rewrite Hd in Hx. discriminate.
  - destruct b as [|d b]; simpl in *.
    + subst y. apply andb_true_iff in Ha as [Hc _]. simpl in Hy.
      rewrite Hc in Hy. discriminate.
    + injection E as -> E.
      apply andb_true_iff in Ha as [_ Ha].
      apply andb_true_iff in Hb as [_ Hb].
      destruct (IH b Ha Hb Hx Hy E) as [-> ->]. auto.
Qed.

(* --------------------------------------------------------------------- *)
(** ** What the substitution does *)

(** Without a match nothing is replaced and nothing is found. *)
Lemma no_token s :
  tokens s = [] ->
  (forall repl, sub_from repl 0 s = s) /\ search s = None.
Proof.
  induction s as [|c s Hnone IH|s tok rest Hm IH] using scan_ind; intros H.
  - auto.
  - rewrite (tokens_no_match c s Hnone) in H.
    destruct (IH H) as [Hsub Hsearch]. split.
    + intros repl. now rewrite (sub_no_match repl c s Hnone), Hsub.
    + now rewrite (search_no_match c s Hnone).
  - rewrite (tokens_match s tok rest Hm) in H. discriminate.
Qed.

(** A version the pattern can match whole and that [re.sub] takes
    literally: no whitespace, no backslash. *)
Definition plain_token (v : string) : bool :=
  all_chars in_class v && negb (has_backslash v).

(** The substitution leaves the text as it is exactly when every token
    is the new version already. *)
Lemma sub_unchanged_iff v s :
  all_chars in_class v = true ->
  sub_from (fun _ => "version=" ++ v) 0 s = s
  <-> Forall (fun tok => tok = v) (tokens s).
Proof.
  intros Hv.
  induction s as [|c s Hnone IH|s tok rest Hm IH] using scan_ind.
  - split; [constructor | reflexivity].
  - rewrite (sub_no_match _ c s Hnone), (tokens_no_match c s Hnone).
    split.
    + intros [= E]. now apply IH.
    + intros H. apply IH in H. now rewrite H.
  - rewrite (sub_match _ s tok rest Hm), (tokens_match s tok rest Hm).
    destruct (match_here_spec _ _ _ Hm) as (Es & Htok & _ & Hrest).
    rewrite Es, !append_assoc. split.
    + intros E.
      assert (E' : v ++ sub_from (fun _ => "version=" ++ v) 0 rest
                   = tok ++ rest).
      { simpl in E. now injection E. }
      destruct (class_run_unique _ _ _ _ Hv Htok
                  (boundary_sub _ _ Hrest) Hrest E') as [-> E2].
      constructor; [reflexivity | now apply IH].
    + intros H. inversion H as [|? ? -> Hall]; subst.
      apply IH in Hall. now rewrite Hall.
Qed.

(** A text with one token: the token is replaced where it stands, and
    the new version is what is found afterwards. *)
Lemma one_token s :
  length (tokens s) = 1 ->
  exists pre tok post,
    s = pre ++ "version=" ++ tok ++ post
    /\ all_chars in_class tok = true
    /\ search s = Some tok
    /\ forall v, all_chars in_class v = true -> is_empty v = false ->
         sub_from (fun _ => "version=" ++ v) 0 s
         = pre ++ "version=" ++ v ++ post
         /\ search (pre ++ "version=" ++ v ++ post) = Some v.
Proof.
  induction s as [|c s Hnone IH|s tok rest Hm _] using scan_ind; intros H.
  - discriminate.
  - rewrite (tokens_no_match c s Hnone) in H.
    destruct (IH H) as (pre & tok & post & Es & Htok & Hsearch & Hsub).
    exists (String c pre), tok, post.
    split; [simpl; now rewrite Es|].
    split; [exact Htok|].
    split; [now rewrite (search_no_match c s Hnone)|].
    intros v Hv Hne. destruct (Hsub v Hv Hne) as [Hs1 Hs2]. split.
    + now rewrite (sub_no_match _ c s Hnone), Hs1.
    + rewrite Es in Hnone. apply match_here_is_match in Hnone.
      assert (Hn : match_here (String c pre ++ "version=" ++ v ++ post)
                   = None).
      { apply match_here_is_match.
        now rewrite (is_match_local c pre (v ++ post) (tok ++ post)). }
      change (String c pre ++ "version=" ++ v ++ post)
        with (String c (pre ++ "version=" ++ v ++ post)) in *.
      now rewrite (search_no_match _ _ Hn).
  - rewrite (tokens_match s tok rest Hm) in H.
    assert (Hnil : tokens rest = []).
    { destruct (tokens rest); [reflexivity | discriminate]. }
    destruct (no_token rest Hnil) as [Hsub _].
    destruct (match_here_spec _ _ _ Hm) as (Es & Htok & _ & Hrest).
    exists "", tok, rest.
    split; [exact Es|].
    split; [exact Htok|].
    split; [exact (search_match s tok rest Hm)|].
    intros v Hv Hne. split.
    + now rewrite (sub_match _ s tok rest Hm), Hsub, append_assoc.
    + simpl append.
      exact (search_match _ _ _ (match_here_run v rest Hv Hne Hrest)).
Qed.

End ReFacts.

Module TextIOFacts.
Import Str StrFacts Re ReFacts TextIO.
Local Open Scope string_scope.

Definition not_CR (c : ascii) : bool := negb (Ascii.eqb c CR).

Lemma encode_append p a b :
  encode_newlines p (a ++ b) = encode_newlines p a ++ encode_newlines p b.
Proof.
  induction a as [|c a IH]; simpl; [reflexivity|].
  destruct (Ascii.eqb c LF); rewrite IH; [|reflexivity].
  now rewrite append_assoc.
Qed.

Lemma class_not_newline c :
  in_class c = true -> Ascii.eqb c LF = false /\ not_CR c = true.
Proof.
  unfold in_class, not_CR. intros H. apply negb_true_iff in H.
  apply orb_false_iff in H as [H Hcr].
  apply orb_false_iff in H as [_ Hlf].
  now rewrite Hlf, Hcr.
Qed.

(** A token goes to the file as it is. *)
Lemma encode_class p v :
  all_chars in_class v = true -> encode_newlines p v = v.
Proof.
  induction v as [|c v IH]; simpl; [reflexivity|].
  intros H. apply andb_true_iff in H as [Hc Hv].
  destruct (class_not_newline c Hc) as [-> _]. now rewrite (IH Hv).
Qed.

Lemma class_no_CR v :
  all_chars in_class v = true -> all_chars not_CR v = true.
Proof.
  apply all_chars_weaken. intros c Hc. now apply class_not_newline.
Qed.

(** Nothing read in text mode holds a carriage return. *)
Lemma decode_no_CR raw : all_chars not_CR (decode_newlines raw) = true.
Proof.
  remember (String.length raw) as n eqn:En.
  revert raw En. induction n as [n IH] using lt_wf_ind. intros raw En.
  destruct raw as [|c rest]; [reflexivity|].
  cbn [decode_newlines].
  destruct (Ascii.eqb c CR) eqn:Ec.
  - destruct rest as [|d rest']; [reflexivity|].
    destruct (Ascii.eqb d LF); cbn [all_chars].
    + rewrite (IH (String.length rest')); [reflexivity | | reflexivity].
      subst n; simpl; lia.
    + rewrite (IH (String.length (String d rest')));
        [reflexivity | | reflexivity].
      subst n; simpl; lia.
  - cbn [all_chars]. unfold not_CR at 1. rewrite Ec. simpl.
    apply (IH (String.length rest)); [subst n; simpl; lia | reflexivity].
Qed.

(** A text without carriage return is read back as it was written. *)
Lemma decode_encode p text :
  all_chars not_CR text = true ->
  decode_newlines (encode_newlines p text) = text.
Proof.
  induction text as [|c text IH]; [reflexivity|].
  cbn [all_chars encode_newlines]. intros H.
  apply andb_true_iff in H as [Hc Ht]. specialize (IH Ht).
  unfold not_CR in Hc. apply negb_true_iff in Hc.
  destruct (Ascii.eqb_spec c LF) as [->|Hlf].
  - destruct p; cbn -[Ascii.eqb]; now rewrite IH.
  - cbn [decode_newlines]. now rewrite Hc, IH.
Qed.

End TextIOFacts.

(* ===================================================================== *)
(** * Facts on [bump_version] *)
(* ===================================================================== *)

Module BumpFacts.
Import Str StrFacts PyInt PyIntFacts.
Local Open Scope string_scope.

Lemma split_parts_length version : 3 <= length (split_parts version).
Proof.
  unfold split_parts.
  destruct (Nat.ltb (length (split "." version)) 3) eqn:E.
  - apply Nat.ltb_lt in E. rewrite length_app, repeat_length. lia.
  - apply Nat.ltb_ge in E. exact E.
Qed.

Lemma split_all (P : ascii -> bool) sep s :
  all_chars P s = true ->
  Forall (fun p => all_chars P p = true) (split sep s).
Proof.
  induction s as [|c s IH]; simpl; intros H.
  - repeat constructor.
  - apply andb_true_iff in H as [Hc Hs]. specialize (IH Hs).
    destruct (Ascii.eqb c sep).
    + constructor; [reflexivity | exact IH].
    + destruct (split sep s) as [|p ps].
      * constructor; [|constructor]. simpl. now rewrite Hc.
      * inversion IH as [|? ? Hp Hps]; subst.
        constructor; [|exact Hps]. simpl. now rewrite Hc, Hp.
Qed.

Lemma join_all (P : ascii -> bool) sep parts :
  P sep = true ->
  Forall (fun p => all_chars P p = true) parts ->
  all_chars P (join (String sep "") parts) = true.
Proof.
  intros Hsep. induction parts as [|p ps IH]; intros H; [reflexivity|].
  inversion H as [|? ? Hp Hps]; subst. specialize (IH Hps).
  destruct ps as [|q ps]; [exact Hp|].
  change (join (String sep "") (p :: q :: ps))
    with (p ++ String sep (join (String sep "") (q :: ps))).
  rewrite all_chars_append, Hp. cbn [all_chars andb]. now rewrite Hsep, IH.
Qed.

Lemma padded_parts_clean version :
  Forall (fun p => all_chars (not_sep ".") p = true) (split_parts version).
Proof.
  unfold split_parts.
  destruct (Nat.ltb (length (split "." version)) 3).
  - apply Forall_app. split; [apply split_parts_clean|].
    apply Forall_forall. intros x Hx. apply repeat_spec in Hx. now subst.
  - apply split_parts_clean.
Qed.

Lemma split_parts_all (P : ascii -> bool) version :
  P "0"%char = true ->
  all_chars P version = true ->
  Forall (fun p => all_chars P p = true) (split_parts version).
Proof.
  intros H0 Hv. unfold split_parts.
  destruct (Nat.ltb (length (split "." version)) 3).
  - apply Forall_app. split; [now apply split_all|].
    apply Forall_forall. intros x Hx. apply repeat_spec in Hx. subst.
    simpl. now rewrite H0.
  - now apply split_all.
Qed.

(** [int] raises nothing but [ValueError]. *)
Lemma magnitude_cases s :
  (exists n, magnitude s = Ok n) \/ magnitude s = Raised ValueError.
Proof.
  unfold magnitude. destruct (well_grouped false s); [|now right].
  cbv zeta. destruct (over_limit _); [now right|].
  destruct (NilEmpty.uint_of_string _); [left; eauto | now right].
Qed.

Lemma int_cases s :
  (exists n, int s = Ok n) \/ int s = Raised ValueError.
Proof.
  unfold int.
  assert (Hneg : forall r,
    (exists n, (n <-- magnitude r ;; Ok (- n)%Z) = Ok n)
    \/ (n <-- magnitude r ;; Ok (- n)%Z) = Raised ValueError).
  { intros r. destruct (magnitude_cases r) as [[n ->] | ->];
      simpl; [left; eauto | now right]. }
  destruct (strip_with is_int_space s) as [|c r]; [apply magnitude_cases|].
  destruct c as [[|] [|] [|] [|] [|] [|] [|] [|]];
    first [apply Hneg | apply magnitude_cases].
Qed.

Lemma bumped_index_cases bump_type :
  bumped_index bump_type = 0 \/ bumped_index bump_type = 1
  \/ bumped_index bump_type = 2.
Proof.
  unfold bumped_index.
  destruct (String.eqb bump_type "major"); [auto|].
  destruct (String.eqb bump_type "minor"); auto.
Qed.

(** The parts after a bump, from the parts before it and the text [x] of
    the incremented number. *)
Definition bumped_parts (bump_type : string) (x : string)
    (parts : list string) : list string :=
  match parts with
  | a :: b :: c :: rest =>
      match bumped_index bump_type with
      | 0 => x :: "0" :: "0" :: rest
      | 1 => a :: x :: "0" :: rest
      | _ => a :: b :: x :: rest
      end
  | _ => parts
  end.

(** [bump_version] as one equation: the number read, incremented and
    printed, then the parts joined. *)
Lemma bump_version_eq version bump_type :
  bump_version version bump_type =
    (x <-- (n <-- int (nth (bumped_index bump_type)
                         (split_parts version) "") ;;
            str (n + 1)) ;;
     Ok (join "." (bumped_parts bump_type x (split_parts version)))).
Proof.
  pose proof (split_parts_length version) as Hlen.
  unfold bump_version, bumped_parts, bumped_index, incremented.
  destruct (split_parts version) as [|a [|b [|c rest]]];
    simpl in Hlen; try lia.
  destruct (String.eqb bump_type "major");
    [|destruct (String.eqb bump_type "minor")];
    cbn [nth getitem nth_error obind].
  - destruct (int a) as [n|]; [|reflexivity]. cbn [obind].
    now destruct (str (n + 1)).
  - destruct (int b) as [n|]; [|reflexivity]. cbn [obind].
    now destruct (str (n + 1)).
  - destruct (int c) as [n|]; [|reflexivity]. cbn [obind].
    now destruct (str (n + 1)).
Qed.

Lemma bumped_parts_clean k x parts :
  all_chars (not_sep ".") x = true ->
  Forall (fun p => all_chars (not_sep ".") p = true) parts ->
  Forall (fun p => all_chars (not_sep ".") p = true) (bumped_parts k x parts).
Proof.
  intros Hx H. unfold bumped_parts.
  destruct parts as [|a [|b [|c rest]]]; try exact H.
  inversion H as [|? ? Ca H1]; subst.
  inversion H1 as [|? ? Cb H2]; subst.
  inversion H2 as [|? ? Cc Hrest]; subst.
  destruct (bumped_index k) as [|[|]]; repeat constructor; auto.
Qed.

Lemma bumped_parts_all (P : ascii -> bool) k x parts :
  P "0"%char = true ->
  all_chars P x = true ->
  Forall (fun p => all_chars P p = true) parts ->
  Forall (fun p => all_chars P p = true) (bumped_parts k x parts).
Proof.
  intros H0 Hs H. unfold bumped_parts.
  destruct parts as [|a [|b [|c rest]]]; try exact H.
  inversion H as [|? ? Ca H1]; subst.
  inversion H1 as [|? ? Cb H2]; subst.
  inversion H2 as [|? ? Cc Hrest]; subst.
  assert (Hz : all_chars P "0" = true) by (simpl; now rewrite H0).
  destruct (bumped_index k) as [|[|]]; repeat constructor; auto.
Qed.

Lemma bumped_parts_not_nil k x parts :
  3 <= length parts -> exists p ps, bumped_parts k x parts = p :: ps.
Proof.
  intros H. unfold bumped_parts.
  destruct parts as [|a [|b [|c rest]]]; simpl in H; try lia.
  destruct (bumped_index k) as [|[|]]; eauto.
Qed.

(** What a bump that returns has read, and the parts of its result. *)
Lemma bump_version_parts version bump_type bumped :
  bump_version version bump_type = Ok bumped ->
  exists n,
    int (nth (bumped_index bump_type) (split_parts version) "") = Ok n
    /\ str (n + 1) = Ok (decimal (n + 1))
    /\ bumped = join "." (bumped_parts bump_type (decimal (n + 1))
                            (split_parts version))
    /\ split "." bumped
       = bumped_parts bump_type (decimal (n + 1)) (split_parts version).
Proof.
  rewrite bump_version_eq.
  destruct (int _) as [n|]; [|discriminate]. cbn [obind].
  destruct (str_cases (n + 1)) as [[Hs _] | [Hs _]]; rewrite Hs;
    [|discriminate].
  cbn [obind]. intros [= <-]. exists n.
  split; [reflexivity|]. split; [exact Hs|]. split; [reflexivity|].
  destruct (bumped_parts_not_nil bump_type (decimal (n + 1))
              (split_parts version) (split_parts_length version))
    as (p & ps & E).
  rewrite E. apply split_join. rewrite <- E.
  apply bumped_parts_clean;
    [apply decimal_no_dot | apply padded_parts_clean].
Qed.

(** The text printed for [n + 1] is not a text read as [n]. *)
Lemma str_not_same p n x : int p = Ok n -> str (n + 1) = Ok x -> x <> p.
Proof.
  intros Hp Hx E. apply int_str in Hx. rewrite E, Hp in Hx.
  injection Hx. lia.
Qed.

End BumpFacts.

(* ===================================================================== *)
(** * Facts on the version in the file *)
(* ===================================================================== *)

Module FileFacts.
Import Str StrFacts Re ReFacts TextIO TextIOFacts.
Local Open Scope string_scope.

Lemma has_backslash_template v :
  has_backslash ("version=" ++ v) = has_backslash v.
Proof. reflexivity. Qed.

Lemma plain_token_spec v :
  plain_token v = true ->
  all_chars in_class v = true /\ has_backslash v = false.
Proof.
  unfold plain_token. intros H. apply andb_true_iff in H as [H1 H2].
  apply negb_true_iff in H2. auto.
Qed.

(** What [update_version_in_library_properties] does to a file that is
    there, for a version [re.sub] takes literally. *)
Lemma update_present (w : world) (stored v : string) :
  library_properties w = Some stored ->
  has_backslash v = false ->
  let content := decode_newlines stored in
  let new_content := sub_from (fun _ => "version=" ++ v) 0 content in
  update_version_in_library_properties v w =
    if String.eqb new_content content then (Ok false, w)
    else (Ok true,
          set_library_properties w
            (Some (encode_newlines (os w) new_content))).
Proof.
  intros Hfile Hv. cbv zeta.
  unfold update_version_in_library_properties, try_except, bind, read_text,
    Re.sub, write_text, ret.
  rewrite Hfile, has_backslash_template, Hv.
  now destruct (String.eqb _ _).
Qed.

Lemma update_absent (w : world) (v : string) :
  library_properties w = None ->
  update_version_in_library_properties v w = (Ok false, w).
Proof.
  intros Hfile.
  unfold update_version_in_library_properties, try_except, bind, read_text.
  now rewrite Hfile.
Qed.

Lemma get_current_version_present (w : world) (stored tok : string) :
  library_properties w = Some stored ->
  search (decode_newlines stored) = Some tok ->
  get_current_version w = (Ok tok, w).
Proof.
  intros Hfile Hs.
  unfold get_current_version, try_except, bind, read_text, ret.
  now rewrite Hfile, Hs.
Qed.

End FileFacts.

Module ReMore.
Import Str StrFacts Re ReFacts TextIO TextIOFacts.
Local Open Scope string_scope.

(** No match starts in [pre] when a [version=] follows it. *)
Fixpoint quiet (pre : string) : bool :=
  match pre with
  | EmptyString => true
  | String c u => negb (is_match (String c u ++ "version=")) && quiet u
  end.

Lemma quiet_no_match c u X :
  quiet (String c u) = true ->
  match_here (String c u ++ "version=" ++ X) = None.
Proof.
  intros H. cbn [quiet] in H. apply andb_true_iff in H as [H _].
  apply negb_true_iff in H. apply match_here_is_match.
  rewrite (is_match_local c u X ""). exact H.
Qed.

Lemma quiet_tail c u : quiet (String c u) = true -> quiet u = true.
Proof. cbn [quiet]. intros H. now apply andb_true_iff in H as [_ H]. Qed.

Lemma tokens_quiet pre X :
  quiet pre = true -> tokens (pre ++ "version=" ++ X) = tokens ("version=" ++ X).
Proof.
  induction pre as [|c u IH]; intros H; [reflexivity|].
  change (String c u ++ "version=" ++ X)
    with (String c (u ++ "version=" ++ X)).
  rewrite tokens_no_match; [exact (IH (quiet_tail _ _ H))|].
  exact (quiet_no_match c u X H).
Qed.

Lemma search_quiet pre X :
  quiet pre = true -> search (pre ++ "version=" ++ X) = search ("version=" ++ X).
Proof.
  induction pre as [|c u IH]; intros H; [reflexivity|].
  change (String c u ++ "version=" ++ X)
    with (String c (u ++ "version=" ++ X)).
  rewrite search_no_match; [exact (IH (quiet_tail _ _ H))|].
  exact (quiet_no_match c u X H).
Qed.

(** A text has no token, or a first match after a quiet beginning. *)
Lemma first_match s :
  tokens s = []
  \/ exists pre tok rest,
       s = pre ++ "version=" ++ tok ++ rest
       /\ quiet pre = true
       /\ match_here ("version=" ++ tok ++ rest) = Some (tok, rest)
       /\ forall repl,
            sub_from repl 0 s
            = pre ++ repl ("version=" ++ tok) ++ sub_from repl 0 rest.
Proof.
  induction s as [|c s IH].
  - now left.
  - destruct (match_here (String c s)) as [[tok rest]|] eqn:Hm.
    + right. exists "", tok, rest.
      destruct (match_here_spec _ _ _ Hm) as (Es & _).
      split; [exact Es|]. split; [reflexivity|].
      split; [now rewrite <- Es|].
      intros repl. exact (sub_match repl _ _ _ Hm).
    + rewrite (tokens_no_match c s Hm).
      destruct IH as [Hnil | (pre & tok & rest & Es & Hq & Hmr & Hsub)];
        [now left|].
      right. exists (String c pre), tok, rest.
      split; [simpl; now rewrite Es|]. split.
      * cbn [quiet]. rewrite Hq, andb_true_r. apply negb_true_iff.
        apply match_here_is_match in Hm. rewrite Es in Hm.
        exact (eq_trans (is_match_local c pre "" (tok ++ rest)) Hm).
      * split; [exact Hmr|]. intros repl.
        now rewrite (sub_no_match repl c s Hm), Hsub.
Qed.

(** What is found first is the first of the tokens. *)
Lemma search_first s : search s = hd_error (tokens s).
Proof.
  induction s as [|c s Hnone IH|s tok rest Hm _] using scan_ind.
  - reflexivity.
  - now rewrite (search_no_match c s Hnone), (tokens_no_match c s Hnone).
  - now rewrite (search_match s tok rest Hm), (tokens_match s tok rest Hm).
Qed.

(** Every token is a run of the class, and not the empty one. *)
Lemma tokens_class s :
  Forall (fun tok => all_chars in_class tok = true /\ is_empty tok = false)
    (tokens s).
Proof.
  induction s as [|c s Hnone IH|s tok rest Hm IH] using scan_ind.
  - constructor.
  - now rewrite (tokens_no_match c s Hnone).
  - rewrite (tokens_match s tok rest Hm).
    destruct (match_here_spec _ _ _ Hm) as (_ & Ht & He & _).
    constructor; auto.
Qed.

(** After the substitution every token is the new version. *)
Lemma tokens_sub v s :
  all_chars in_class v = true -> is_empty v = false ->
  tokens (sub_from (fun _ => "version=" ++ v) 0 s)
  = map (fun _ => v) (tokens s).
Proof.
  intros Hv Hne.
  remember (String.length s) as n eqn:En.
  revert s En. induction n as [n IH] using lt_wf_ind. intros s En.
  destruct (first_match s)
    as [Hnil | (pre & tok & rest & Es & Hq & Hm & Hsub)].
  - destruct (no_token s Hnil) as [Hid _]. now rewrite Hid, Hnil.
  - rewrite Hsub, Es, !append_assoc.
    rewrite (tokens_quiet pre _ Hq), (tokens_quiet pre _ Hq).
    destruct (match_here_spec _ _ _ Hm) as (_ & _ & _ & Hb).
    rewrite (tokens_match _ _ _ Hm).
    rewrite (tokens_match _ _ _
               (match_here_run v _ Hv Hne (boundary_sub _ rest Hb))).
    cbn [map]. f_equal.
    apply (IH (String.length rest)); [|reflexivity].
    subst n s. rewrite !length_append. simpl. lia.
Qed.

Lemma sub_no_CR v s :
  all_chars in_class v = true ->
  all_chars not_CR s = true ->
  all_chars not_CR (sub_from (fun _ => "version=" ++ v) 0 s) = true.
Proof.
  intros Hv.
  induction s as [|c s Hnone IH|s tok rest Hm IH] using scan_ind; intros H.
  - reflexivity.
  - rewrite (sub_no_match _ c s Hnone). cbn [all_chars] in *.
    apply andb_true_iff in H as [Hc Hs]. now rewrite Hc, (IH Hs).
  - rewrite (sub_match _ s tok rest Hm).
    destruct (match_here_spec _ _ _ Hm) as (Es & _).
    rewrite Es, !all_chars_append in H.
    apply andb_true_iff in H as [_ H].
    apply andb_true_iff in H as [_ H].
    rewrite !all_chars_append, (class_no_CR _ Hv), (IH H). reflexivity.
Qed.

End ReMore.

Module FileMore.
Import Str StrFacts Re ReFacts ReMore TextIO TextIOFacts FileFacts.
Local Open Scope string_scope.

(** The file after a write, and the text it is read as. *)
Lemma update_result (w : world) (stored v : string) :
  library_properties w = Some stored ->
  plain_token v = true ->
  exists updated w' stored',
    update_version_in_library_properties v w = (Ok updated, w')
    /\ library_properties w' = Some stored'
    /\ decode_newlines stored'
       = sub_from (fun _ => "version=" ++ v) 0 (decode_newlines stored)
    /\ (updated = false -> w' = w)
    /\ (updated = negb (String.eqb (decode_newlines stored')
                         (decode_newlines stored)))
    /\ console w' = console w /\ issued w' = issued w /\ os w' = os w
    /\ shell w' = shell w /\ re_escapes w' = re_escapes w.
Proof.
  intros Hfile Hp. destruct (plain_token_spec v Hp) as [Hc Hb].
  rewrite (update_present w stored v Hfile Hb). cbv zeta.
  destruct (String.eqb_spec
              (sub_from (fun _ => "version=" ++ v) 0 (decode_newlines stored))
              (decode_newlines stored)) as [E|Hne].
  - exists false, w, stored. rewrite E, String.eqb_refl. repeat split; auto.
  - eexists true, _, _. split; [reflexivity|].
    split; [reflexivity|].
    rewrite decode_encode by (apply sub_no_CR; [exact Hc | apply decode_no_CR]).
    split; [reflexivity|]. split; [discriminate|].
    split; [|repeat split].
    apply String.eqb_neq in Hne. now rewrite Hne.
Qed.

Lemma get_current_version_spec (w : world) :
  get_current_version w =
    match library_properties w with
    | None => (Raised (SystemExit 1), w)
    | Some stored =>
        match search (decode_newlines stored) with
        | Some v => (Ok v, w)
        | None => (Raised (SystemExit 1), w)
        end
    end.
Proof.
  unfold get_current_version, try_except, bind, read_text, ret, sys_exit,
    raise.
  destruct (library_properties w) as [stored|]; [|reflexivity].
  now destruct (search (decode_newlines stored)).
Qed.

Lemma get_current_version_ok (w w0 : world) (v : string) :
  get_current_version w = (Ok v, w0) ->
  exists stored,
    library_properties w = Some stored
    /\ hd_error (tokens (decode_newlines stored)) = Some v
    /\ all_chars in_class v = true /\ is_empty v = false /\ w0 = w.
Proof.
  rewrite get_current_version_spec.
  destruct (library_properties w) as [stored|]; [|discriminate].
  pose proof (search_first (decode_newlines stored)) as Hs.
  pose proof (tokens_class (decode_newlines stored)) as Hc.
  destruct (search (decode_newlines stored)) as [t|]; [|discriminate].
  intros [= -> <-]. exists stored. split; [reflexivity|].
  destruct (tokens (decode_newlines stored)) as [|t' ts]; [discriminate|].
  injection Hs as ->. inversion Hc as [|? ? [H1 H2] _]. auto.
Qed.

End FileMore.


(* ===================================================================== *)
(** * The yes/no prompt *)
(* ===================================================================== *)

Section PromptClaims.
Import Str StrFacts.
Local Open Scope string_scope.

Lemma to_lower_y c :
  Ascii.eqb (to_lower c) "y" = Ascii.eqb c "y" || Ascii.eqb c "Y".
Proof.
  destruct c as [[|] [|] [|] [|] [|] [|] [|] [|]]; vm_compute; reflexivity.
Qed.

Lemma startswith_y c s :
  startswith "y" (String c s) = Ascii.eqb c "y".
Proof.
  unfold startswith. cbn [String.prefix].
  destruct (Ascii.ascii_dec "y" c) as [<-|Hne].
  - now destruct s.
  - symmetry. apply Ascii.eqb_neq. congruence.
Qed.

(** C10, as the claim has it, fails: a blank is a response that is not
    empty and does not start with [y], and it is taken as the default,
    here yes. *)
Lemma blank_answer_is_default :
  let w := Scenario.posix_world None [" "] [] in
  String.eqb " " "" = false
  /\ startswith "y" (lower (strip " ")) = false
  /\ fst (get_yes_no "Continue with this version?" true w) = Ok true.
Proof. repeat split. Qed.

(** What lines 79-81 make of a stripped response. *)
Lemma answer_of_stripped (default : bool) (stripped : string) :
  (if String.eqb (lower stripped) "" then default
   else startswith "y" (lower stripped))
  = match stripped with
    | EmptyString => default
    | String c _ => Ascii.eqb c "y" || Ascii.eqb c "Y"
    end.
Proof.
  destruct stripped as [|c s]; [reflexivity|].
  cbn [lower String.eqb]. now rewrite startswith_y, to_lower_y.
Qed.

(** C10, amended.  The response is stripped of the whitespace around it
    first.  If nothing is left the prompt answers its default; otherwise
    it answers yes exactly when the first character left is [y] or [Y],
    and no for every other response. *)
Theorem get_yes_no_answer
    (prompt : string) (default : bool) (w : world)
    (line : string) (rest : list string) :
  console w = line :: rest ->
  get_yes_no prompt default w =
    (Ok match strip line with
        | EmptyString => default
        | String c _ => Ascii.eqb c "y" || Ascii.eqb c "Y"
        end,
     set_console w rest).
Proof.
  intros Hc. unfold get_yes_no, bind, input, ret. rewrite Hc.
  rewrite <- (answer_of_stripped default (strip line)).
  now destruct (String.eqb (lower (strip line)) "").
Qed.

(** The theorem at the answer [sure]: a decline. *)
Lemma get_yes_no_answer_witness :
  let w := Scenario.posix_world None ["sure"; "next"] [] in
  get_yes_no "Continue anyway?" true w = (Ok false, set_console w ["next"]).
Proof.
  cbv zeta.
  exact (get_yes_no_answer "Continue anyway?" true
           (Scenario.posix_world None ["sure"; "next"] []) "sure" ["next"]
           eq_refl).
Defined.

Example answers :
  let ask line default :=
    fst (get_yes_no "?" default (Scenario.posix_world None [line] [])) in
  ask "" true = Ok true /\ ask "" false = Ok false
  /\ ask "  Yes " false = Ok true /\ ask "y" false = Ok true
  /\ ask "ok" true = Ok false /\ ask "sure" true = Ok false
  /\ ask "no" true = Ok false.
Proof. repeat split. Qed.

Lemma declines_answer prompt default w line rest :
  console w = line :: rest ->
  declines line = true ->
  get_yes_no prompt default w = (Ok false, set_console w rest).
Proof.
  intros Hc Hd. unfold get_yes_no, bind, input, ret. rewrite Hc.
  pose proof (answer_of_stripped default (strip line)) as Ha.
  unfold declines in Hd. destruct (strip line) as [|c s]; [discriminate|].
  apply negb_true_iff in Hd. rewrite Hd in Ha.
  destruct (String.eqb (lower (String c s)) ""); now rewrite Ha.
Qed.

End PromptClaims.

(* ===================================================================== *)
(** * The orchestration of the external commands *)
(* ===================================================================== *)

Module RunFacts.
Local Open Scope string_scope.

(** The world once [cmd] has run. *)
Definition ran (w : world) (cmd : string) : world :=
  set_issued w (issued w ++ [cmd])%list.

(** [run_command], case by case. *)
Lemma run_command_spec (cmd : string) (check : bool) (w : world) :
  run_command cmd check w =
    match shell w (issued w) cmd with
    | None => (Raised SubprocessError, ran w cmd)
    | Some result =>
        if check && negb (Z.eqb (returncode result) 0)
        then (Raised (SystemExit 1), ran w cmd)
        else (Ok (Str.strip (stdout result)), ran w cmd)
    end.
Proof.
  unfold run_command, bind, subprocess_run, ran.
  destruct (shell w (issued w) cmd) as [result|]; [|reflexivity].
  now destruct (check && negb (Z.eqb (returncode result) 0)).
Qed.

(** A command that exits with a non-zero status under [check=True] ends
    in [SystemExit(1)]. *)
Lemma run_command_failure cmd w result :
  shell w (issued w) cmd = Some result ->
  returncode result <> 0%Z ->
  run_command cmd true w = (Raised (SystemExit 1), ran w cmd).
Proof.
  intros Hs Hrc. rewrite run_command_spec, Hs.
  apply Z.eqb_neq in Hrc. now rewrite Hrc.
Qed.

(** [except Exception] lets a [SystemExit] through. *)
Lemma try_except_exit {A} (c h : M A) (w w' : world) (code : Z) :
  c w = (Raised (SystemExit code), w') ->
  try_except c is_Exception h w = (Raised (SystemExit code), w').
Proof. intros H. unfold try_except. now rewrite H. Qed.

Lemma bind_raised {A B} (c : M A) (k : A -> M B) w w' e :
  c w = (Raised e, w') -> bind c k w = (Raised e, w').
Proof. intros H. unfold bind. now rewrite H. Qed.

Lemma bind_ok {A B} (c : M A) (k : A -> M B) w w' a :
  c w = (Ok a, w') -> bind c k w = k a w'.
Proof. intros H. unfold bind. now rewrite H. Qed.

(** The release command that exits with a non-zero status stops the
    script with status 1: the handler of lines 134-139 is not reached. *)
Lemma create_github_release_failure version notes w result :
  shell w (issued w) (release_command version notes) = Some result ->
  returncode result <> 0%Z ->
  create_github_release version notes w
  = (Raised (SystemExit 1), ran w (release_command version notes)).
Proof.
  intros Hs Hrc. unfold create_github_release.
  apply try_except_exit. apply bind_raised.
  now apply run_command_failure with (result := result).
Qed.

(** When [subprocess.run] itself raises, the handler is reached. *)
Lemma create_github_release_caught version notes w :
  shell w (issued w) (release_command version notes) = None ->
  create_github_release version notes w
  = (Ok false, ran w (release_command version notes)).
Proof.
  intros Hs. unfold create_github_release, try_except, bind.
  now rewrite run_command_spec, Hs.
Qed.

Lemma main_from_release_failure version w line rest result :
  console w = line :: rest ->
  shell w (issued w) (release_command version (Str.strip line))
  = Some result ->
  returncode result <> 0%Z ->
  exit_status (fst (main_from_release version w)) = 1%Z.
Proof.
  intros Hc Hs Hrc. unfold main_from_release, bind, input. rewrite Hc.
  now rewrite (create_github_release_failure version (Str.strip line)
                 (set_console w rest) result Hs Hrc).
Qed.

Lemma main_from_commit_run new_version w0 line w commit_message r w' :
  input ("Commit message [Bump version to " ++ new_version ++ "]: ") w0
  = (Ok line, w) ->
  commit_message =
    (if Str.is_empty (Str.strip line)
     then "Bump version to " ++ new_version else Str.strip line) ->
  commit_and_push_changes commit_message w = (r, w') ->
  main_from_commit new_version w0 =
    match r with
    | Ok true => main_from_release new_version w'
    | Ok false => (Raised (SystemExit 1), w')
    | Raised e => (Raised e, w')
    end.
Proof.
  intros Hin -> Hrun. unfold main_from_commit, bind.
  rewrite Hin, Hrun. now destruct r as [[|]|].
Qed.

(** One call of [run_command] in a chain: the cases of its answer. *)
Ltac run_step :=
  rewrite run_command_spec;
  cbn [ran shell issued set_issued console library_properties os re_escapes];
  match goal with
  | |- context [shell ?w ?l ?c] => destruct (shell w l c) as [?p|] eqn:?E
  end; cbn [andb negb];
  try match goal with
      | |- context [Z.eqb (returncode ?p) 0] =>
          destruct (Z.eqb (returncode p) 0) eqn:?
      end; cbn [negb is_Exception].

(** The chain stopped after its first [k] commands, before the pushes. *)
Ltac stopped k :=
  intros [= <- <-]; exists k;
  split; [cbn; now rewrite <- ?app_assoc | intros; lia].

(** The remote that cannot be added stops the script with status 1: the
    handler of lines 170-172 is not reached. *)
Lemma setup_remotes_failure w listed added :
  shell w (issued w) "git remote -v" = Some listed ->
  Str.contains "upstream" (Str.strip (stdout listed)) = false ->
  shell w (issued w ++ ["git remote -v"])%list
    ("git remote add upstream " ++ UPSTREAM_URL) = Some added ->
  returncode added <> 0%Z ->
  setup_remotes w
  = (Raised (SystemExit 1),
     ran (ran w "git remote -v") ("git remote add upstream " ++ UPSTREAM_URL)).
Proof.
  intros Hl Hno Ha Hrc. unfold setup_remotes.
  apply try_except_exit. unfold bind at 1.
  rewrite run_command_spec, Hl. cbn [andb]. rewrite Hno. cbn [negb].
  apply bind_raised.
  now apply run_command_failure with (result := added).
Qed.

(** What [setup_remotes] can end in: [True], [False] when
    [subprocess.run] raised, or the exit of a failed [git remote add]. *)
Lemma setup_remotes_outcomes w :
  exists r w',
    setup_remotes w = (r, w')
    /\ (r = Ok true \/ r = Ok false \/ r = Raised (SystemExit 1)).
Proof.
  unfold setup_remotes, try_except, bind.
  run_step.
  2:{ unfold ret. do 2 eexists. split; [reflexivity | auto]. }
  destruct (Str.contains "upstream" (Str.strip (stdout p)));
    destruct (Str.contains "origin" (Str.strip (stdout p)));
    cbn [negb ret]; repeat run_step;
    unfold ret; do 2 eexists; (split; [reflexivity | auto]).
Qed.

End RunFacts.

Module DeclineFacts.
Import RunFacts.
Local Open Scope string_scope.

Lemma main_from_confirmation_declined new_version w line rest :
  console w = line :: rest ->
  declines line = true ->
  main_from_confirmation new_version w
  = (Raised (SystemExit 0), set_console w rest).
Proof.
  intros Hc Hd. unfold main_from_confirmation, bind.
  now rewrite (declines_answer _ true w line rest Hc Hd).
Qed.

Lemma main_format_declined w line rest result :
  library_properties w = None ->
  console w = line :: rest ->
  declines line = true ->
  shell w (issued w) "git rev-parse --git-dir" = Some result ->
  returncode result = 0%Z ->
  main w = (Raised (SystemExit 1),
            set_console (ran w "git rev-parse --git-dir") rest).
Proof.
  intros Hf Hc Hd Hs Hrc. unfold main.
  unfold bind at 1. unfold try_except.
  rewrite run_command_spec, Hs, Hrc. cbn [andb negb Z.eqb].
  unfold bind at 1. unfold check_arduino_library_format.
  unfold bind at 1. unfold TextIO.path_exists.
  cbn [ran library_properties set_issued]. rewrite Hf.
  unfold bind at 1.
  rewrite (declines_answer "Continue anyway?" false
             (ran w "git rev-parse --git-dir") line rest Hc Hd).
  reflexivity.
Qed.

End DeclineFacts.

Module StripFacts.
Import Str StrFacts.
Local Open Scope string_scope.

(** Nothing to strip at the head of [s]. *)
Definition head_kept (drop : ascii -> bool) (s : string) : bool :=
  match s with
  | EmptyString => true
  | String c _ => negb (drop c)
  end.

Lemma lstrip_head drop s : head_kept drop (lstrip_with drop s) = true.
Proof.
  induction s as [|c s IH]; [reflexivity|]. simpl.
  destruct (drop c) eqn:E; [exact IH|]. simpl. now rewrite E.
Qed.

Lemma rstrip_head drop s :
  head_kept drop s = true -> head_kept drop (rstrip_with drop s) = true.
Proof.
  destruct s as [|c s]; [reflexivity|]. simpl. intros H.
  apply negb_true_iff in H. rewrite H. simpl. now rewrite H.
Qed.

Lemma lstrip_kept drop s :
  head_kept drop s = true -> lstrip_with drop s = s.
Proof.
  destruct s as [|c s]; [reflexivity|]. simpl. intros H.
  apply negb_true_iff in H. now rewrite H.
Qed.

Lemma rstrip_twice drop s :
  rstrip_with drop (rstrip_with drop s) = rstrip_with drop s.
Proof.
  induction s as [|c s IH]; [reflexivity|]. cbn [rstrip_with].
  destruct (drop c && is_empty (rstrip_with drop s)) eqn:E; [reflexivity|].
  cbn [rstrip_with]. now rewrite IH, E.
Qed.

(** A stripped text is not stripped further. *)
Lemma strip_twice drop s :
  strip_with drop (strip_with drop s) = strip_with drop s.
Proof.
  unfold strip_with.
  rewrite (lstrip_kept drop (rstrip_with drop (lstrip_with drop s))).
  - apply rstrip_twice.
  - apply rstrip_head, lstrip_head.
Qed.

End StripFacts.

Module RunMore.
Import RunFacts.
Local Open Scope string_scope.

(* --------------------------------------------------------------------- *)
(** ** Exits are with status 0 or 1 *)

Definition tame {A} (r : outcome A) : Prop :=
  match r with
  | Raised (SystemExit code) => code = 0%Z \/ code = 1%Z
  | _ => True
  end.

Definition tame_M {A} (c : M A) : Prop := forall w, tame (fst (c w)).

Lemma tame_bind {A B} (c : M A) (k : A -> M B) :
  tame_M c -> (forall a, tame_M (k a)) -> tame_M (bind c k).
Proof.
  intros Hc Hk w. unfold bind. specialize (Hc w).
  destruct (c w) as [[a|e] w1]; [apply Hk | exact Hc].
Qed.

Lemma tame_try {A} (c h : M A) caught :
  tame_M c -> tame_M h -> tame_M (try_except c caught h).
Proof.
  intros Hc Hh w. unfold try_except. specialize (Hc w).
  destruct (c w) as [[a|e] w1]; [exact I|].
  destruct (caught e); [apply Hh | exact Hc].
Qed.

Lemma tame_ret {A} (a : A) : tame_M (ret a).
Proof. intros w. exact I. Qed.

Lemma tame_exit_0 {A} : tame_M (@sys_exit A 0).
Proof. intros w. simpl. auto. Qed.

Lemma tame_exit_1 {A} : tame_M (@sys_exit A 1).
Proof. intros w. simpl. auto. Qed.

Lemma tame_input prompt : tame_M (input prompt).
Proof. intros w. unfold input. now destruct (console w). Qed.

Lemma tame_run_command cmd check : tame_M (run_command cmd check).
Proof.
  intros w. rewrite run_command_spec.
  destruct (shell w (issued w) cmd) as [result|]; [|exact I].
  destruct (check && negb (Z.eqb (returncode result) 0)); simpl; auto.
Qed.

Lemma tame_read_text : tame_M TextIO.read_text.
Proof. intros w. unfold TextIO.read_text. now destruct (library_properties w). Qed.

Lemma tame_sub template s : tame_M (Re.sub template s).
Proof.
  intros w. unfold Re.sub. destruct (Re.has_backslash template); [|exact I].
  now destruct (re_escapes w template).
Qed.

(** A pure computation of the script raises no [SystemExit]. *)
Definition no_exit {A} (r : outcome A) : Prop :=
  match r with
  | Raised (SystemExit _) => False
  | _ => True
  end.

Lemma no_exit_obind {A B} (c : outcome A) (k : A -> outcome B) :
  no_exit c -> (forall a, no_exit (k a)) -> no_exit (obind c k).
Proof. destruct c as [a|e]; simpl; auto. Qed.

Lemma no_exit_setitem l i x : no_exit (setitem l i x).
Proof.
  revert i. induction l as [|h t IH]; intros [|j]; simpl; auto.
  apply no_exit_obind; [apply IH | intros; exact I].
Qed.

Lemma no_exit_int s : no_exit (PyInt.int s).
Proof.
  destruct (BumpFacts.int_cases s) as [[n ->] | ->]; exact I.
Qed.

Lemma no_exit_str n : no_exit (PyInt.str n).
Proof.
  destruct (PyIntFacts.str_cases n) as [[-> _] | [-> _]]; exact I.
Qed.

Lemma no_exit_incremented parts i : no_exit (incremented parts i).
Proof.
  unfold incremented. apply no_exit_obind.
  - unfold getitem. now destruct (nth_error parts i).
  - intros p. apply no_exit_obind; [apply no_exit_int|].
    intros n. apply no_exit_str.
Qed.

Lemma no_exit_bump_version version bump_type :
  no_exit (bump_version version bump_type).
Proof.
  unfold bump_version. apply no_exit_obind; [|intros; exact I].
  destruct (String.eqb bump_type "major");
    [|destruct (String.eqb bump_type "minor")];
    repeat first [ apply no_exit_setitem
                 | apply no_exit_incremented
                 | apply no_exit_obind; [|intros ?] ].
Qed.

Lemma tame_lift {A} (r : outcome A) : no_exit r -> tame_M (lift r).
Proof.
  intros H w. unfold lift. simpl. destruct r as [a|[]]; simpl in *; tauto.
Qed.

Ltac tame_step :=
  first [ apply tame_ret | apply tame_exit_0 | apply tame_exit_1
        | apply tame_input | apply tame_run_command | apply tame_read_text
        | apply tame_sub
        | apply tame_try
        | apply tame_bind; [|intros ?]
        | match goal with
          | |- tame_M (if ?b then _ else _) => destruct b
          | |- tame_M (match ?x with _ => _ end) => destruct x
          end ].

Lemma tame_get_yes_no prompt default : tame_M (get_yes_no prompt default).
Proof. unfold get_yes_no. repeat tame_step. Qed.

Lemma tame_get_current_version : tame_M get_current_version.
Proof. unfold get_current_version. repeat tame_step. Qed.

Lemma tame_update v : tame_M (update_version_in_library_properties v).
Proof.
  unfold update_version_in_library_properties. repeat tame_step.
  all: intros w; exact I.
Qed.

Lemma tame_commit_and_push msg : tame_M (commit_and_push_changes msg).
Proof. unfold commit_and_push_changes. repeat tame_step. Qed.

Lemma tame_create_github_release v notes :
  tame_M (create_github_release v notes).
Proof. unfold create_github_release. repeat tame_step. Qed.

Lemma tame_setup_remotes : tame_M setup_remotes.
Proof. unfold setup_remotes. repeat tame_step. Qed.

Lemma tame_check_format : tame_M check_arduino_library_format.
Proof.
  unfold check_arduino_library_format.
  apply tame_bind; [intros w; unfold TextIO.path_exists;
                    now destruct (library_properties w)|].
  intros present. destruct present; cbn iota.
  - apply tame_ret.
  - apply tame_bind; [apply tame_get_yes_no|].
    intros go_on. destruct go_on; apply tame_ret.
Qed.

Lemma tame_main : tame_M main.
Proof.
  unfold main, main_from_version, main_from_confirmation, main_from_write,
    main_from_commit, main_from_release.
  repeat first
    [ apply tame_get_yes_no | apply tame_get_current_version
    | apply tame_update | apply tame_commit_and_push
    | apply tame_create_github_release | apply tame_setup_remotes
    | apply tame_check_format
    | apply tame_lift; apply no_exit_bump_version
    | tame_step ].
Qed.

(* --------------------------------------------------------------------- *)
(** ** What leaves the file and the console alone *)

(** [c] changes neither the file nor the console. *)
Definition quiet_M {A} (c : M A) : Prop :=
  forall w,
    library_properties (snd (c w)) = library_properties w
    /\ console (snd (c w)) = console w.

Lemma quiet_bind {A B} (c : M A) (k : A -> M B) :
  quiet_M c -> (forall a, quiet_M (k a)) -> quiet_M (bind c k).
Proof.
  intros Hc Hk w. unfold bind. specialize (Hc w).
  destruct (c w) as [[a|e] w1]; simpl in Hc; [|exact Hc].
  destruct (Hk a w1) as [H1 H2]. destruct Hc as [H3 H4].
  split; congruence.
Qed.

Lemma quiet_try {A} (c h : M A) caught :
  quiet_M c -> quiet_M h -> quiet_M (try_except c caught h).
Proof.
  intros Hc Hh w. unfold try_except. specialize (Hc w).
  destruct (c w) as [[a|e] w1]; simpl in Hc; [exact Hc|].
  destruct (caught e); [|exact Hc].
  destruct (Hh w1) as [H1 H2]. destruct Hc as [H3 H4]. split; congruence.
Qed.

Lemma quiet_ret {A} (a : A) : quiet_M (ret a).
Proof. intros w. split; reflexivity. Qed.

Lemma quiet_exit {A} code : quiet_M (@sys_exit A code).
Proof. intros w. split; reflexivity. Qed.

Lemma quiet_run_command cmd check : quiet_M (run_command cmd check).
Proof.
  intros w. rewrite run_command_spec.
  destruct (shell w (issued w) cmd) as [result|]; [|split; reflexivity].
  destruct (check && negb (Z.eqb (returncode result) 0)); split; reflexivity.
Qed.

Ltac quiet_step :=
  first [ apply quiet_ret | apply quiet_exit | apply quiet_run_command
        | apply quiet_try
        | apply quiet_bind; [|intros ?]
        | match goal with
          | |- quiet_M (if ?b then _ else _) => destruct b
          | |- quiet_M (match ?x with _ => _ end) => destruct x
          end ].

Lemma quiet_commit_and_push msg : quiet_M (commit_and_push_changes msg).
Proof. unfold commit_and_push_changes. repeat quiet_step. Qed.

Lemma quiet_create_github_release v notes :
  quiet_M (create_github_release v notes).
Proof. unfold create_github_release. repeat quiet_step. Qed.

Lemma quiet_setup_remotes : quiet_M setup_remotes.
Proof. unfold setup_remotes. repeat quiet_step. Qed.

Lemma quiet_get_current_version : quiet_M get_current_version.
Proof.
  intros w. rewrite FileMore.get_current_version_spec.
  destruct (library_properties w) as [stored|] eqn:E; [|simpl; auto].
  destruct (Re.search _); simpl; auto.
Qed.

(** [c] does not change the file. *)
Definition keeps_file {A} (c : M A) : Prop :=
  forall w, library_properties (snd (c w)) = library_properties w.

Lemma keeps_quiet {A} (c : M A) : quiet_M c -> keeps_file c.
Proof. intros H w. apply H. Qed.

Lemma keeps_bind {A B} (c : M A) (k : A -> M B) :
  keeps_file c -> (forall a, keeps_file (k a)) -> keeps_file (bind c k).
Proof.
  intros Hc Hk w. unfold bind. specialize (Hc w).
  destruct (c w) as [[a|e] w1]; simpl in Hc; [|exact Hc].
  rewrite (Hk a w1). exact Hc.
Qed.

Lemma keeps_input prompt : keeps_file (input prompt).
Proof. intros w. unfold input. now destruct (console w). Qed.

Lemma keeps_get_yes_no prompt default : keeps_file (get_yes_no prompt default).
Proof.
  unfold get_yes_no. apply keeps_bind; [apply keeps_input|].
  intros line. destruct (String.eqb _ _); intros w; reflexivity.
Qed.

End RunMore.

Module RunMore2.
Import RunFacts RunMore.
Local Open Scope string_scope.

Lemma bind_ok_inv {A B} (c : M A) (k : A -> M B) w w' b :
  bind c k w = (Ok b, w') ->
  exists a w1, c w = (Ok a, w1) /\ k a w1 = (Ok b, w').
Proof.
  unfold bind. destruct (c w) as [[a|e] w1]; [eauto | discriminate].
Qed.

Lemma try_ok_inv {A} (c h : M A) caught w w' a :
  try_except c caught h w = (Ok a, w') ->
  c w = (Ok a, w')
  \/ exists e w1, c w = (Raised e, w1) /\ caught e = true /\ h w1 = (Ok a, w').
Proof.
  unfold try_except. destruct (c w) as [[x|e] w1]; [auto|].
  destruct (caught e) eqn:E; [|discriminate]. right. eauto.
Qed.

(** A [True] from [commit_and_push_changes]: the six commands have run
    and the four that are checked have exited with status 0. *)
Lemma commit_and_push_true_inv msg w w' :
  commit_and_push_changes msg w = (Ok true, w') ->
  w' = set_issued w (issued w ++ push_script msg)%list
  /\ forall i cmd result,
       2 <= i ->
       nth_error (push_script msg) i = Some cmd ->
       shell w (issued w ++ firstn i (push_script msg))%list cmd
       = Some result ->
       returncode result = 0%Z.
Proof.
  unfold commit_and_push_changes, try_except, bind.
  run_step; try discriminate.
  destruct (Str.is_empty (Str.strip (stdout p))); try discriminate.
  run_step; try discriminate.
  run_step; try discriminate.
  run_step; try discriminate.
  run_step; try discriminate.
  run_step; try discriminate.
  intros [= <-]. split.
  - unfold ran, set_issued. cbn. now rewrite <- !app_assoc.
  - rewrite <- !app_assoc in *. cbn [app] in *.
    intros i cmd result Hi Hnth Hsh.
    destruct i as [|[|[|[|[|[|i]]]]]]; try lia;
      cbn [firstn push_script nth_error] in Hnth, Hsh;
      try solve [destruct i; discriminate Hnth];
      injection Hnth as <-;
      match goal with
      | H : shell w _ _ = Some ?q, Hq : (returncode ?q =? 0)%Z = true |- _ =>
          solve [ assert (Heq : Some q = Some result)
                    by exact (eq_trans (eq_sym H) Hsh);
                  injection Heq as <-; now apply Z.eqb_eq ]
      end.
Qed.

(** [subprocess.run] raised at the command [c], the one of index [k]. *)
Ltac raised_at k c :=
  intros [= <-]; right; exists k, c;
  rewrite <- ?app_assoc in *; cbn [app] in *;
  split; [reflexivity|];
  split; [match goal with H : shell _ _ _ = None |- _ => exact H end|];
  unfold ran, set_issued; cbn; now rewrite <- ?app_assoc.

(** A [False] from [commit_and_push_changes]: there was nothing to
    commit, or [subprocess.run] itself raised at one of the commands. *)
Lemma commit_and_push_false_inv msg w w' :
  commit_and_push_changes msg w = (Ok false, w') ->
  (exists result,
     shell w (issued w) "git status --porcelain" = Some result
     /\ Str.strip (stdout result) = ""
     /\ w' = ran w "git status --porcelain")
  \/ exists i cmd,
       nth_error (push_script msg) i = Some cmd
       /\ shell w (issued w ++ firstn i (push_script msg))%list cmd = None
       /\ w' = set_issued w (issued w ++ firstn (S i) (push_script msg))%list.
Proof.
  unfold commit_and_push_changes, try_except, bind.
  run_step.
  2:{ intros [= <-]. right. exists 0, "git status --porcelain".
      cbn. rewrite app_nil_r. auto. }
  destruct (Str.is_empty (Str.strip (stdout p))) eqn:Hempty.
  { intros [= <-]. left. exists p. split; [reflexivity|]. split; [|reflexivity].
    destruct (Str.strip (stdout p)); [reflexivity | discriminate]. }
  run_step; [|raised_at 1 "git status --short"].
  run_step; try discriminate; [|raised_at 2 "git add ."].
  run_step; try discriminate;
    [|raised_at 3 ("git commit -m " ++ dquote ++ msg ++ dquote)].
  run_step; try discriminate; [|raised_at 4 "git push upstream main"].
  run_step; try discriminate. raised_at 5 "git push origin main".
Qed.

Lemma run_command_ok_inv cmd check w out w' :
  run_command cmd check w = (Ok out, w') ->
  w' = ran w cmd
  /\ exists result,
       shell w (issued w) cmd = Some result
       /\ out = Str.strip (stdout result)
       /\ (check = true -> returncode result = 0%Z).
Proof.
  rewrite run_command_spec.
  destruct (shell w (issued w) cmd) as [result|]; [|discriminate].
  destruct check; cbn [andb].
  - destruct (Z.eqb_spec (returncode result) 0) as [E|]; [|discriminate].
    cbn. intros [= <- <-]. eauto.
  - intros [= <- <-]. split; [reflexivity|]. exists result.
    repeat split. discriminate.
Qed.

Lemma get_yes_no_default_yes prompt w line rest :
  console w = line :: rest ->
  get_yes_no prompt true w = (Ok (negb (declines line)), set_console w rest).
Proof.
  intros Hc. unfold get_yes_no, bind, input, ret. rewrite Hc.
  pose proof (answer_of_stripped true (Str.strip line)) as Ha.
  unfold declines. destruct (Str.strip line) as [|c s].
  - reflexivity.
  - rewrite negb_involutive, <- Ha.
    now destruct (String.eqb (Str.lower (String c s)) "").
Qed.

Lemma get_yes_no_eof prompt default w :
  console w = [] -> get_yes_no prompt default w = (Raised EOFError, w).
Proof. intros Hc. unfold get_yes_no, bind, input. now rewrite Hc. Qed.

End RunMore2.

Module RunMore3.
Import RunFacts DeclineFacts RunMore RunMore2.
Local Open Scope string_scope.

Lemma input_inv prompt w line w1 :
  input prompt w = (Ok line, w1) ->
  exists rest, console w = line :: rest /\ w1 = set_console w rest.
Proof.
  unfold input. destruct (console w) as [|l rest]; [discriminate|].
  intros [= <- <-]. eauto.
Qed.

Lemma create_github_release_issued v notes w r w' :
  create_github_release v notes w = (r, w') ->
  w' = ran w (release_command v notes).
Proof.
  unfold create_github_release, try_except, bind.
  rewrite run_command_spec.
  destruct (shell w (issued w) (release_command v notes)) as [result|];
    [|now intros [= <- <-]].
  cbn [andb]. destruct (negb (Z.eqb (returncode result) 0));
    now intros [= <- <-].
Qed.

(** The file is not written before the new version is confirmed. *)
Lemma confirmation_guards_file new_version w :
  library_properties (snd (main_from_confirmation new_version w))
  <> library_properties w ->
  exists answer rest, console w = answer :: rest /\ declines answer = false.
Proof.
  intros H. destruct (console w) as [|answer rest] eqn:Hc.
  - exfalso. apply H. unfold main_from_confirmation, bind.
    now rewrite (get_yes_no_eof _ true w Hc).
  - exists answer, rest. split; [reflexivity|].
    destruct (declines answer) eqn:Hd; [|reflexivity].
    exfalso. apply H.
    now rewrite (main_from_confirmation_declined new_version w answer rest
                   Hc Hd).
Qed.

Lemma version_guards_file w :
  library_properties (snd (main_from_version w)) <> library_properties w ->
  exists stored bump_line answer rest,
    library_properties w = Some stored
    /\ console w = bump_line :: answer :: rest
    /\ declines answer = false.
Proof.
  unfold main_from_version, bind.
  rewrite FileMore.get_current_version_spec.
  destruct (library_properties w) as [stored|] eqn:Hf;
    [|intros H; now elim H].
  destruct (Re.search (TextIO.decode_newlines stored)) as [v|];
    [|intros H; now elim H].
  unfold input. destruct (console w) as [|bump_line rest1] eqn:Hc;
    [intros H; now elim H|].
  unfold lift.
  destruct (bump_version v _) as [new_version|e];
    [|intros H; elim H; exact Hf].
  intros H.
  destruct (confirmation_guards_file new_version (set_console w rest1))
    as (answer & rest & Hc' & Hd).
  { cbn [library_properties set_console]. now rewrite Hf. }
  exists stored, bump_line, answer, rest. cbn in Hc'. rewrite Hc'. auto.
Qed.

Lemma version_absent w :
  library_properties w = None ->
  main_from_version w = (Raised (SystemExit 1), w).
Proof.
  intros Hf. unfold main_from_version, bind.
  now rewrite FileMore.get_current_version_spec, Hf.
Qed.

(** The commands answer the same way whatever the script has done. *)
Definition steady_M {A} (c : M A) : Prop :=
  forall w, shell (snd (c w)) = shell w.

Lemma steady_eq {A} (c : M A) w r w' :
  steady_M c -> c w = (r, w') -> shell w' = shell w.
Proof. intros Hc E. specialize (Hc w). now rewrite E in Hc. Qed.

Lemma steady_bind {A B} (c : M A) (k : A -> M B) :
  steady_M c -> (forall a, steady_M (k a)) -> steady_M (bind c k).
Proof.
  intros Hc Hk w. unfold bind. specialize (Hc w).
  destruct (c w) as [[a|e] w1]; simpl in Hc; [|exact Hc].
  rewrite (Hk a w1). exact Hc.
Qed.

Lemma steady_try {A} (c h : M A) caught :
  steady_M c -> steady_M h -> steady_M (try_except c caught h).
Proof.
  intros Hc Hh w. unfold try_except. specialize (Hc w).
  destruct (c w) as [[a|e] w1]; simpl in Hc; [exact Hc|].
  destruct (caught e); [|exact Hc]. rewrite (Hh w1). exact Hc.
Qed.

Lemma steady_ret {A} (a : A) : steady_M (ret a).
Proof. intros w. reflexivity. Qed.

Lemma steady_exit {A} code : steady_M (@sys_exit A code).
Proof. intros w. reflexivity. Qed.

Lemma steady_lift {A} (r : outcome A) : steady_M (lift r).
Proof. intros w. reflexivity. Qed.

Lemma steady_input prompt : steady_M (input prompt).
Proof. intros w. unfold input. now destruct (console w). Qed.

Lemma steady_run_command cmd check : steady_M (run_command cmd check).
Proof.
  intros w. rewrite run_command_spec.
  destruct (shell w (issued w) cmd) as [result|]; [|reflexivity].
  now destruct (check && negb (Z.eqb (returncode result) 0)).
Qed.

Lemma steady_read_text : steady_M TextIO.read_text.
Proof.
  intros w. unfold TextIO.read_text. now destruct (library_properties w).
Qed.

Lemma steady_write_text text : steady_M (TextIO.write_text text).
Proof. intros w. reflexivity. Qed.

Lemma steady_path_exists : steady_M TextIO.path_exists.
Proof.
  intros w. unfold TextIO.path_exists. now destruct (library_properties w).
Qed.

Lemma steady_sub template s : steady_M (Re.sub template s).
Proof.
  intros w. unfold Re.sub. destruct (Re.has_backslash template);
    [|reflexivity].
  now destruct (re_escapes w template).
Qed.

Ltac steady_step :=
  first [ apply steady_ret | apply steady_exit | apply steady_lift
        | apply steady_input | apply steady_run_command
        | apply steady_read_text | apply steady_write_text
        | apply steady_path_exists | apply steady_sub
        | apply steady_try
        | apply steady_bind; [|intros ?]
        | match goal with
          | |- steady_M (if ?b then _ else _) => destruct b
          | |- steady_M (match ?x with _ => _ end) => destruct x
          end ].

Lemma steady_get_yes_no prompt default : steady_M (get_yes_no prompt default).
Proof. unfold get_yes_no. repeat steady_step. Qed.

Lemma steady_get_current_version : steady_M get_current_version.
Proof. unfold get_current_version. repeat steady_step. Qed.

Lemma steady_update v : steady_M (update_version_in_library_properties v).
Proof. unfold update_version_in_library_properties. repeat steady_step. Qed.

Lemma steady_setup_remotes : steady_M setup_remotes.
Proof. unfold setup_remotes. repeat steady_step. Qed.

Lemma steady_check_format : steady_M check_arduino_library_format.
Proof.
  unfold check_arduino_library_format.
  apply steady_bind; [apply steady_path_exists|].
  intros present. destruct present; cbn iota; [apply steady_ret|].
  apply steady_bind; [apply steady_get_yes_no|].
  intros go_on. destruct go_on; apply steady_ret.
Qed.

Lemma check_format_file w :
  check_arduino_library_format w =
    match library_properties w, console w with
    | Some _, _ => (Ok true, w)
    | None, [] => (Raised EOFError, w)
    | None, line :: rest =>
        (Ok match Str.strip line with
            | EmptyString => false
            | String c _ => Ascii.eqb c "y" || Ascii.eqb c "Y"
            end,
         set_console w rest)
    end.
Proof.
  unfold check_arduino_library_format, bind at 1, TextIO.path_exists.
  destruct (library_properties w); [reflexivity|]. cbn iota.
  unfold bind, get_yes_no, bind, input.
  destruct (console w) as [|line rest]; [reflexivity|].
  unfold ret. rewrite <- (answer_of_stripped false (Str.strip line)).
  destruct (String.eqb (Str.lower (Str.strip line)) ""); [reflexivity|].
  now destruct (Str.startswith "y" (Str.lower (Str.strip line))).
Qed.

End RunMore3.


(* ===================================================================== *)
(** * How far a run of [main] has come *)
(* ===================================================================== *)

(** Line 223: the bump type typed, [patch] for a blank line. *)
Definition bump_type_of (line : string) : string :=
  if Str.is_empty (Str.strip line) then "patch" else Str.strip line.


(** The run from [w] has checked the repository and the format and set
    up the remotes, and is at line 220 in the world [w3]. *)
Definition reaches_version (w w3 : world) : Prop :=
  exists checked w1 w2 listed,
    run_command "git rev-parse --git-dir" true w = (Ok checked, w1)
    /\ check_arduino_library_format w1 = (Ok true, w2)
    /\ setup_remotes w2 = (Ok listed, w3).

(** The run has read [current_version] and the bump type, and is at the
    call of [bump_version], line 224, in the world [w4]. *)
Definition reaches_bump (w w4 : world) (current_version bump_type : string)
  : Prop :=
  exists w3 w3' line,
    reaches_version w w3
    /\ get_current_version w3 = (Ok current_version, w3')
    /\ input "Bump type (major/minor/patch) [patch]: " w3' = (Ok line, w4)
    /\ bump_type = bump_type_of line.

(** The run has computed [new_version] and is at the confirmation
    prompt, line 228. *)
Definition reaches_confirmation (w w4 : world) (new_version : string)
  : Prop :=
  exists current_version bump_type,
    reaches_bump w w4 current_version bump_type
    /\ bump_version current_version bump_type = Ok new_version.



Module Path.
Import RunFacts DeclineFacts RunMore RunMore2 RunMore3.
Local Open Scope string_scope.

Lemma main_at_version w w3 :
  reaches_version w w3 -> main w = main_from_version w3.
Proof.
  intros (checked & w1 & w2 & listed & H1 & H2 & H3).
  unfold main. unfold bind at 1. unfold try_except. rewrite H1.
  unfold bind at 1. rewrite H2. cbn [negb].
  unfold bind at 1. now rewrite H3.
Qed.

Lemma main_at_bump w w4 current_version bump_type :
  reaches_bump w w4 current_version bump_type ->
  main w = (new_version <- lift (bump_version current_version bump_type) ;;
            main_from_confirmation new_version) w4.
Proof.
  intros (w3 & w3' & line & Hv & Hget & Hin & ->).
  rewrite (main_at_version w w3 Hv).
  unfold main_from_version, bump_type_of.
  unfold bind at 1. rewrite Hget. unfold bind at 1. now rewrite Hin.
Qed.

Lemma main_at_confirmation w w4 new_version :
  reaches_confirmation w w4 new_version ->
  main w = main_from_confirmation new_version w4.
Proof.
  intros (v & k & Hb & Hbump). rewrite (main_at_bump w w4 v k Hb).
  unfold bind, lift. now rewrite Hbump.
Qed.



(** Up to the confirmation the file is as it was at the start. *)
Lemma file_at_version w w3 :
  reaches_version w w3 -> library_properties w3 = library_properties w.
Proof.
  intros (checked & w1 & w2 & listed & H1 & H2 & H3).
  pose proof (quiet_run_command "git rev-parse --git-dir" true w) as [Q1 _].
  rewrite H1 in Q1. cbn [snd] in Q1.
  pose proof (quiet_setup_remotes w2) as [Q3 _].
  rewrite H3 in Q3. cbn [snd] in Q3.
  rewrite check_format_file in H2.
  destruct (library_properties w1) eqn:E1.
  - injection H2 as <-. congruence.
  - destruct (console w1); [discriminate|].
    injection H2 as _ <-. cbn [library_properties set_console] in Q3.
    congruence.
Qed.

Lemma file_at_bump w w4 v k :
  reaches_bump w w4 v k -> library_properties w4 = library_properties w.
Proof.
  intros (w3 & w3' & line & Hv & Hget & Hin & _).
  apply file_at_version in Hv.
  apply FileMore.get_current_version_ok in Hget as (_ & _ & _ & _ & _ & ->).
  apply input_inv in Hin as (rest & _ & ->). exact Hv.
Qed.

Lemma file_at_confirmation w w4 new_version :
  reaches_confirmation w w4 new_version ->
  library_properties w4 = library_properties w.
Proof. intros (v & k & Hb & _). exact (file_at_bump _ _ _ _ Hb). Qed.

(** Up to the bump the commands run are those of the checks. *)
Lemma issued_at_bump w w4 v k :
  reaches_bump w w4 v k ->
  exists w3, reaches_version w w3 /\ issued w4 = issued w3.
Proof.
  intros (w3 & w3' & line & Hv & Hget & Hin & _).
  apply FileMore.get_current_version_ok in Hget as (_ & _ & _ & _ & _ & ->).
  apply input_inv in Hin as (rest & _ & ->). eauto.
Qed.

End Path.

(* ===================================================================== *)
(** * Bumping a version *)
(* ===================================================================== *)

(** A component of a version: a text without a dot that [int] reads as
    [value]. *)
Definition component (text : string) (value : Z) : Prop :=
  StrFacts.all_chars (StrFacts.not_sep ".") text = true
  /\ PyInt.int text = Ok value.

(** The triple a version text stands for in the data model: one to three
    components separated by dots, a missing trailing component being 0. *)
Inductive reads_as : string -> Z * Z * Z -> Prop :=
| reads_major a major :
    component a major ->
    reads_as a (major, 0, 0)%Z
| reads_minor a b major minor :
    component a major -> component b minor ->
    reads_as (a ++ "." ++ b) (major, minor, 0)%Z
| reads_patch a b c major minor patch :
    component a major -> component b minor -> component c patch ->
    reads_as (a ++ "." ++ b ++ "." ++ c) (major, minor, patch).

(** The number a bump has to print: the incremented field of the
    transition. *)
Definition bumped_number (bump_type : string) (t : Z * Z * Z) : Z :=
  let '(major, minor, patch) := transition bump_type t in
  if String.eqb bump_type "major" then major
  else if String.eqb bump_type "minor" then minor
  else patch.

(** [n] copies of the character [c]. *)
Fixpoint repeat_char (n : nat) (c : ascii) : string :=
  match n with
  | O => EmptyString
  | S k => String c (repeat_char k c)
  end.

(** The components [bump_version] is to return for the components
    [comps] of the source version and the text [x] of the incremented
    number: the components before the incremented one as they are, [0]
    after it up to the third, the rest as they are; a missing component
    is [0]. *)
Definition expected_parts (bump_type x : string) (comps : list string)
  : list string :=
  if String.eqb bump_type "major" then
    x :: "0" :: "0" :: skipn 3 comps
  else if String.eqb bump_type "minor" then
    nth 0 comps "0" :: x :: "0" :: skipn 3 comps
  else
    nth 0 comps "0" :: nth 1 comps "0" :: x :: skipn 3 comps.

Module BumpClaimFacts.
Import Str StrFacts PyInt PyIntFacts BumpFacts.
Local Open Scope string_scope.

Lemma split_parts_1 a :
  all_chars (not_sep ".") a = true -> split_parts a = [a; "0"; "0"].
Proof. intros Ha. unfold split_parts. now rewrite (split_clean "." a Ha). Qed.

Lemma split_parts_2 a b :
  all_chars (not_sep ".") a = true -> all_chars (not_sep ".") b = true ->
  split_parts (a ++ "." ++ b) = [a; b; "0"].
Proof.
  intros Ha Hb. unfold split_parts.
  change (a ++ "." ++ b) with (a ++ String "." b).
  now rewrite (split_append "." a b Ha), (split_clean "." b Hb).
Qed.

Lemma split_parts_3 a b c :
  all_chars (not_sep ".") a = true -> all_chars (not_sep ".") b = true ->
  all_chars (not_sep ".") c = true ->
  split_parts (a ++ "." ++ b ++ "." ++ c) = [a; b; c].
Proof.
  intros Ha Hb Hc. unfold split_parts.
  change (a ++ "." ++ b ++ "." ++ c) with (a ++ String "." (b ++ String "." c)).
  now rewrite (split_append "." a _ Ha), (split_append "." b c Hb),
    (split_clean "." c Hc).
Qed.

Lemma component_zero : component "0" 0.
Proof. split; reflexivity. Qed.

Lemma component_decimal n :
  over_limit (decimal (Z.abs n)) = false -> component (decimal n) n.
Proof. intros H. split; [apply decimal_no_dot | now apply int_decimal]. Qed.

(** The padded parts of the code and the components with [0] for a
    missing one. *)
Lemma nth_split_parts version i :
  i < 3 ->
  nth i (split_parts version) "" = nth i (split "." version) "0".
Proof.
  intros Hi. unfold split_parts.
  pose proof (split_not_nil "." version) as Hn.
  destruct (split "." version) as [|a [|b [|c rest]]]; [congruence| | |];
    cbn [length Nat.ltb Nat.leb Nat.sub repeat app];
    destruct i as [|[|[|i]]]; try lia; reflexivity.
Qed.

Lemma bumped_parts_expected k x version :
  bumped_parts k x (split_parts version)
  = expected_parts k x (split "." version).
Proof.
  unfold split_parts, bumped_parts, expected_parts, bumped_index.
  pose proof (split_not_nil "." version) as Hn.
  destruct (split "." version) as [|a [|b [|c rest]]]; [congruence| | |];
    cbn [length Nat.ltb Nat.leb Nat.sub repeat app];
    destruct (String.eqb k "major"); try reflexivity;
    destruct (String.eqb k "minor"); reflexivity.
Qed.

(** [bump_version] on the components of the version. *)
Lemma bump_version_on_components version k :
  bump_version version k =
    (x <-- (n <-- int (nth (bumped_index k) (split "." version) "0") ;;
            str (n + 1)) ;;
     Ok (join "." (expected_parts k x (split "." version)))).
Proof.
  rewrite bump_version_eq, nth_split_parts.
  - destruct (n <-- int _ ;; str (n + 1)) as [x|e]; [|reflexivity].
    cbn [obind]. now rewrite bumped_parts_expected.
  - destruct (bumped_index_cases k) as [->|[->| ->]]; lia.
Qed.

End BumpClaimFacts.

Section BumpClaims.
Import Str StrFacts PyInt PyIntFacts BumpFacts BumpClaimFacts.
Local Open Scope string_scope.

Example bump_123_minor : bump_version "1.2.3" "minor" = Ok "1.3.0".
Proof. reflexivity. Qed.

Example bump_9_major : bump_version "9" "major" = Ok "10.0.0".
Proof. reflexivity. Qed.

Example bump_keeps_text : bump_version "01.+2.0_9" "patch" = Ok "01.+2.10".
Proof. reflexivity. Qed.

Example bump_four_parts : bump_version "1.2.3.4" "patch" = Ok "1.2.4.4".
Proof. reflexivity. Qed.

Example bump_not_a_number : bump_version "1.2.x" "patch" = Raised ValueError.
Proof. reflexivity. Qed.

(** C1, as the claim has it, fails: a version whose third component is
    the integer of 4300 nines has three integer components, and the
    patch bump raises [ValueError], the incremented number having 4301
    digits, more than the interpreter converts to text. *)
Lemma bump_version_over_limit :
  let nines := repeat_char 4300 "9" in
  reads_as ("1" ++ "." ++ "2" ++ "." ++ nines) (1, 2, 10 ^ 4300 - 1)%Z
  /\ bump_version ("1" ++ "." ++ "2" ++ "." ++ nines) "patch"
     = Raised ValueError.
Proof.
  cbv zeta. split.
  - apply reads_patch; split; vm_compute; reflexivity.
  - vm_compute. reflexivity.
Qed.

(** C1, amended.  For a version text of one to three integer components
    (a missing trailing component being 0) and a bump kind among major,
    minor and patch, when the incremented number has no more than 4300
    digits, [bump_version] returns a text of three components that
    stands for the documented transition of the source triple:
    (major+1, 0, 0), (major, minor+1, 0) or (major, minor, patch+1). *)
Theorem bump_version_transition (version bump_type : string) (t : Z * Z * Z) :
  reads_as version t ->
  In bump_type ["major"; "minor"; "patch"] ->
  over_limit (decimal (Z.abs (bumped_number bump_type t))) = false ->
  exists a b c,
    bump_version version bump_type = Ok (a ++ "." ++ b ++ "." ++ c)
    /\ (let '(major, minor, patch) := transition bump_type t in
        component a major /\ component b minor /\ component c patch)
    /\ reads_as (a ++ "." ++ b ++ "." ++ c) (transition bump_type t).
Proof.
  intros Hread Hk Hl.
  assert (Hgoal : exists a b c,
            bump_version version bump_type = Ok (a ++ "." ++ b ++ "." ++ c)
            /\ (let '(major, minor, patch) := transition bump_type t in
                component a major /\ component b minor
                /\ component c patch)).
  { rewrite bump_version_eq.
    destruct Hread as [a M [Ca Ia] | a b M m [Ca Ia] [Cb Ib]
                      | a b c M m p [Ca Ia] [Cb Ib] [Cc Ic]];
      [ rewrite (split_parts_1 a Ca)
      | rewrite (split_parts_2 a b Ca Cb)
      | rewrite (split_parts_3 a b c Ca Cb Cc) ];
      destruct Hk as [<- | [<- | [<- | []]]];
      cbn [bumped_index String.eqb Ascii.eqb Bool.eqb nth] in *;
      cbn [bumped_number transition String.eqb Ascii.eqb Bool.eqb] in Hl;
      cbn [transition String.eqb Ascii.eqb Bool.eqb];
      rewrite ?Ia, ?Ib, ?Ic;
      try (change (PyInt.int "0") with (@Ok Z 0%Z));
      cbn [obind]; rewrite (str_within _ Hl); cbn [obind];
      do 3 eexists; (split; [reflexivity|]);
      repeat split;
      first [ assumption | apply decimal_no_dot | now apply int_decimal
            | reflexivity ]. }
  destruct Hgoal as (a & b & c & Hb & Hc).
  exists a, b, c. split; [exact Hb|]. split; [exact Hc|].
  destruct (transition bump_type t) as [[M m] p].
  destruct Hc as (Ha & Hm & Hp). now apply reads_patch.
Qed.

(** The version [9] is read as (9, 0, 0) and bumped as such. *)
Lemma bump_version_transition_witness :
  reads_as "9" (9, 0, 0)%Z
  /\ bump_version "9" "minor" = Ok "9.1.0"
  /\ exists a b c,
       bump_version "9" "minor" = Ok (a ++ "." ++ b ++ "." ++ c)
       /\ (let '(major, minor, patch) := transition "minor" (9, 0, 0)%Z in
           component a major /\ component b minor /\ component c patch)
       /\ reads_as (a ++ "." ++ b ++ "." ++ c) (transition "minor" (9, 0, 0)%Z).
Proof.
  assert (H9 : reads_as "9" (9, 0, 0)%Z).
  { apply reads_major. split; reflexivity. }
  split; [exact H9|]. split; [reflexivity|].
  apply (bump_version_transition "9" "minor" (9, 0, 0)%Z H9).
  - simpl. auto.
  - reflexivity.
Defined.

Example bump_9_all :
  bump_version "9" "major" = Ok "10.0.0"
  /\ bump_version "9" "minor" = Ok "9.1.0"
  /\ bump_version "9" "patch" = Ok "9.0.1".
Proof. repeat split. Qed.

(** C5, as the claim has it, fails: a version with a component that is no
    integer is bumped all the same when the bump does not read that
    component. *)
Lemma bump_version_unparsed_component :
  PyInt.int "x" = Raised ValueError
  /\ Str.split "." "1.x.3" = ["1"; "x"; "3"]
  /\ bump_version "1.x.3" "patch" = Ok "1.x.4".
Proof. repeat split. Qed.

Lemma main_bump_raised w w4 version bump_type e :
  reaches_bump w w4 version bump_type ->
  bump_version version bump_type = Raised e ->
  main w = (Raised e, w4).
Proof.
  intros Hr Hb. rewrite (Path.main_at_bump w w4 version bump_type Hr).
  unfold bind, lift. now rewrite Hb.
Qed.

(** C5, amended.  [bump_version] reads as an integer only the component
    it increments: the first for major, the second for minor, the third
    for any other kind, a missing one being [0].  It raises [ValueError],
    and nothing else, exactly when [int] rejects that component or the
    incremented number has more than 4300 digits; the run of [main] that
    called it then aborts with status 1, the file as it was.  Otherwise
    it returns the components joined by dots, with the incremented one
    printed anew, the ones before it copied as text, the ones after it
    up to the third set to [0], and the ones from the fourth on copied
    as text. *)
Theorem bump_version_fails_iff (version bump_type : string) :
  let comps := split "." version in
  let selected := nth (bumped_index bump_type) comps "0" in
  (bump_version version bump_type = Raised ValueError
   <-> (PyInt.int selected = Raised ValueError
        \/ exists n,
             PyInt.int selected = Ok n
             /\ over_limit (decimal (Z.abs (n + 1))) = true))
  /\ (forall e, bump_version version bump_type = Raised e -> e = ValueError)
  /\ (forall n,
        PyInt.int selected = Ok n ->
        over_limit (decimal (Z.abs (n + 1))) = false ->
        bump_version version bump_type
        = Ok (join "." (expected_parts bump_type (decimal (n + 1)) comps)))
  /\ (forall w w4,
        reaches_bump w w4 version bump_type ->
        bump_version version bump_type = Raised ValueError ->
        main w = (Raised ValueError, w4)
        /\ fst (run_script w) = 1%Z
        /\ library_properties w4 = library_properties w).
Proof.
  cbv zeta. rewrite bump_version_on_components.
  split; [|split; [|split]].
  - destruct (int_cases (nth (bumped_index bump_type) (split "." version) "0"))
      as [[n Hn] | Hn]; rewrite Hn; cbn [obind].
    + destruct (str_cases (n + 1)) as [[Hs Hl] | [Hs Hl]]; rewrite Hs;
        cbn [obind]; split.
      * discriminate.
      * intros [H | (m & [= <-] & H)]; [discriminate | congruence].
      * intros _. right. eauto.
      * reflexivity.
    + split; auto.
  - intros e.
    destruct (int_cases (nth (bumped_index bump_type) (split "." version) "0"))
      as [[n Hn] | Hn]; rewrite Hn; cbn [obind]; [|now intros [= <-]].
    destruct (str_cases (n + 1)) as [[Hs _] | [Hs _]]; rewrite Hs;
      cbn [obind]; [discriminate | now intros [= <-]].
  - intros n Hn Hl. rewrite Hn. cbn [obind].
    now rewrite (str_within _ Hl).
  - intros w w4 Hr Hb. rewrite <- bump_version_on_components in Hb.
    pose proof (main_bump_raised w w4 version bump_type _ Hr Hb) as Hm.
    split; [exact Hm|]. split.
    + unfold run_script. now rewrite Hm.
    + destruct Hr as (w3 & w3' & line & Hv & Hget & Hin & _).
      apply Path.file_at_version in Hv.
      apply FileMore.get_current_version_ok in Hget
        as (_ & _ & _ & _ & _ & ->).
      apply RunMore3.input_inv in Hin as (rest & _ & ->). exact Hv.
Qed.

(** The theorem at a whole run: the file holds [version=1.2.x], a patch
    bump is asked for, and the script aborts with status 1. *)
Lemma bump_version_fails_iff_witness :
  let w := Scenario.posix_world (Some ("version=1.2.x" ++ Scenario.lf))
             ["patch"; "y"; ""; ""]
             (Scenario.dirty_tree ++ Scenario.remotes_listed)%list in
  let w4 := set_console
              (set_issued w ["git rev-parse --git-dir"; "git remote -v"])
              ["y"; ""; ""] in
  bump_version "1.2.x" "patch" = Raised ValueError
  /\ main w = (Raised ValueError, w4)
  /\ fst (run_script w) = 1%Z
  /\ library_properties w4 = library_properties w.
Proof.
  cbv zeta. split; [reflexivity|].
  apply (proj2 (proj2 (proj2 (bump_version_fails_iff "1.2.x" "patch")))).
  - exists (set_issued
              (Scenario.posix_world (Some ("version=1.2.x" ++ Scenario.lf))
                 ["patch"; "y"; ""; ""]
                 (Scenario.dirty_tree ++ Scenario.remotes_listed)%list)
              ["git rev-parse --git-dir"; "git remote -v"]).
    eexists. exists "patch".
    split; [|split; [reflexivity | split; reflexivity]].
    do 4 eexists. split; [reflexivity|]. split; reflexivity.
  - reflexivity.
Defined.

End BumpClaims.

(* ===================================================================== *)
(** * Writing the version to the file and reading it back *)
(* ===================================================================== *)

(** What a properties file with one version assignment is, said of the
    text and not of the pattern the script searches with. *)

(** A version token: not empty, and without whitespace. *)
Definition is_token (tok : string) : bool :=
  negb (Str.is_empty tok)
  && StrFacts.all_chars (fun c => negb (Str.is_space c)) tok.

(** The text before an assignment ends a line, or is empty. *)
Fixpoint at_line_start (pre : string) : bool :=
  match pre with
  | EmptyString => true
  | String c EmptyString => Ascii.eqb c LF
  | String _ rest => at_line_start rest
  end.

(** The text after a token is empty or starts with whitespace. *)
Definition ends_token (post : string) : bool :=
  match post with
  | EmptyString => true
  | String c _ => Str.is_space c
  end.

(** [version=] followed by a character that is not whitespace, at the
    head of [s]. *)
Definition starts_assignment (s : string) : bool :=
  String.prefix "version=" s
  && match String.get 8 s with
     | Some c => negb (Str.is_space c)
     | None => false
     end.

(** At how many places of [s] such a text starts. *)
Fixpoint mentions (s : string) : nat :=
  match s with
  | EmptyString => 0
  | String _ rest => (if starts_assignment s then 1 else 0) + mentions rest
  end.

(** A version that is written as it is and read back whole. *)
Definition writable_version (v : string) : bool :=
  is_token v
  && StrFacts.all_chars (fun c => negb (Ascii.eqb c "\"%char)) v.

Module FileClaimFacts.
Import Str StrFacts Re ReFacts ReMore TextIO TextIOFacts FileFacts.
Local Open Scope string_scope.

Lemma in_class_space c : in_class c = negb (is_space c).
Proof.
  destruct c as [[] [] [] [] [] [] [] []]; reflexivity.
Qed.

Lemma after_literal_prefix lit s :
  after_literal lit s
  = if String.prefix lit s then Some (drop (String.length lit) s) else None.
Proof.
  revert s. induction lit as [|a lit IH]; intros s.
  - now destruct s.
  - destruct s as [|b s]; [reflexivity|].
    cbn [after_literal String.prefix String.length drop].
    destruct (Ascii.eqb_spec a b) as [E|E], (ascii_dec a b) as [E'|E'];
      try contradiction; [apply IH | reflexivity].
Qed.

Lemma get_drop n s :
  String.get n s
  = match drop n s with String c _ => Some c | EmptyString => None end.
Proof.
  revert s. induction n as [|n IH]; intros [|c s]; try reflexivity.
  cbn [String.get drop]. apply IH.
Qed.

(** The place where an assignment starts is the place where the pattern
    matches. *)
Lemma starts_assignment_is_match s : starts_assignment s = is_match s.
Proof.
  unfold starts_assignment, is_match.
  rewrite after_literal_prefix, get_drop.
  change (String.length "version=") with 8.
  destruct (String.prefix "version=" s); [|reflexivity].
  cbn [andb]. destruct (drop 8 s) as [|c r]; [reflexivity|].
  now rewrite in_class_space.
Qed.

Lemma is_token_class tok :
  is_token tok = true ->
  all_chars in_class tok = true /\ is_empty tok = false.
Proof.
  unfold is_token. intros H. apply andb_true_iff in H as [He Hc].
  apply negb_true_iff in He. split; [|exact He].
  revert Hc. apply all_chars_weaken. intros c Hc.
  now rewrite in_class_space.
Qed.

Lemma ends_token_boundary post : ends_token post = true -> boundary post = true.
Proof.
  destruct post as [|c post]; [reflexivity|].
  cbn [ends_token boundary]. intros H. now rewrite in_class_space, H.
Qed.

Lemma writable_version_plain v :
  writable_version v = true ->
  all_chars in_class v = true /\ is_empty v = false
  /\ has_backslash v = false.
Proof.
  unfold writable_version. intros H. apply andb_true_iff in H as [Ht Hb].
  destruct (is_token_class v Ht) as [Hc He].
  split; [exact Hc|]. split; [exact He|].
  clear Ht Hc He. induction v as [|c v IH]; [reflexivity|].
  cbn [all_chars has_backslash] in *.
  apply andb_true_iff in Hb as [Hc Hv].
  apply negb_true_iff in Hc. now rewrite Hc, (IH Hv).
Qed.

Lemma starts_at_assignment tok post :
  is_token tok = true ->
  starts_assignment ("version=" ++ tok ++ post) = true.
Proof.
  intros Ht. unfold is_token in Ht. apply andb_true_iff in Ht as [He Hc].
  destruct tok as [|c tok]; [discriminate He|].
  cbn [all_chars] in Hc. apply andb_true_iff in Hc as [Hc _].
  unfold starts_assignment. cbn. exact Hc.
Qed.

Lemma mentions_assignment pre tok post :
  is_token tok = true ->
  1 <= mentions (pre ++ "version=" ++ tok ++ post).
Proof.
  intros Ht. induction pre as [|c pre IH].
  - change ("" ++ "version=" ++ tok ++ post)
      with (String "v" ("ersion=" ++ tok ++ post)).
    cbn [mentions].
    change (String "v" ("ersion=" ++ tok ++ post))
      with ("version=" ++ tok ++ post).
    rewrite (starts_at_assignment tok post Ht). lia.
  - change (String c pre ++ "version=" ++ tok ++ post)
      with (String c (pre ++ "version=" ++ tok ++ post)).
    cbn [mentions]. lia.
Qed.

Lemma mentions_suffix a b : mentions (a ++ b) = 0 -> mentions b = 0.
Proof.
  induction a as [|c a IH]; [trivial|].
  change (String c a ++ b) with (String c (a ++ b)).
  cbn [mentions]. intros H. apply IH. lia.
Qed.

Lemma mentions_none s : mentions s = 0 -> tokens s = [].
Proof.
  induction s as [|c s IH]; [reflexivity|].
  cbn [mentions]. intros H.
  destruct (starts_assignment (String c s)) eqn:E; [discriminate H|].
  rewrite starts_assignment_is_match in E.
  apply match_here_is_match in E.
  rewrite (tokens_no_match c s E). apply IH. exact H.
Qed.

(** A text that mentions a version once, at an assignment: nothing
    matches before the assignment, and nothing after its token. *)
Lemma mentions_once pre tok post :
  is_token tok = true ->
  mentions (pre ++ "version=" ++ tok ++ post) = 1 ->
  quiet pre = true /\ tokens post = [].
Proof.
  intros Ht. induction pre as [|c pre IH].
  - change ("" ++ "version=" ++ tok ++ post)
      with (String "v" ("ersion=" ++ tok ++ post)).
    cbn [mentions].
    change (String "v" ("ersion=" ++ tok ++ post))
      with ("version=" ++ tok ++ post).
    rewrite (starts_at_assignment tok post Ht). intros H.
    split; [reflexivity|]. apply mentions_none.
    apply (mentions_suffix ("ersion=" ++ tok)).
    rewrite append_assoc. change (("ersion=" ++ tok) ++ post)
      with ("ersion=" ++ tok ++ post) in *. lia.
  - change (String c pre ++ "version=" ++ tok ++ post)
      with (String c (pre ++ "version=" ++ tok ++ post)).
    cbn [mentions]. intros H.
    pose proof (mentions_assignment pre tok post Ht) as Hge.
    destruct (starts_assignment (String c (pre ++ "version=" ++ tok ++ post)))
      eqn:E; [lia|].
    destruct IH as [Hq Hpost]; [lia|]. split; [|exact Hpost].
    cbn [quiet]. rewrite Hq, andb_true_r. apply negb_true_iff.
    rewrite starts_assignment_is_match in E.
    exact (eq_trans (is_match_local c pre "" (tok ++ post)) E).
Qed.

Lemma sub_quiet repl pre X :
  quiet pre = true ->
  sub_from repl 0 (pre ++ "version=" ++ X)
  = pre ++ sub_from repl 0 ("version=" ++ X).
Proof.
  induction pre as [|c u IH]; intros H; [reflexivity|].
  change (String c u ++ "version=" ++ X)
    with (String c (u ++ "version=" ++ X)).
  rewrite sub_no_match; [now rewrite (IH (quiet_tail _ _ H))|].
  exact (quiet_no_match c u X H).
Qed.

(** The substitution and the search on such a text. *)
Lemma one_assignment pre tok post v :
  is_token tok = true -> ends_token post = true ->
  mentions (pre ++ "version=" ++ tok ++ post) = 1 ->
  search (pre ++ "version=" ++ tok ++ post) = Some tok
  /\ sub_from (fun _ => "version=" ++ v) 0 (pre ++ "version=" ++ tok ++ post)
     = pre ++ "version=" ++ v ++ post.
Proof.
  intros Ht He Hm.
  destruct (mentions_once pre tok post Ht Hm) as [Hq Hpost].
  destruct (is_token_class tok Ht) as [Hc Hne].
  pose proof (match_here_run tok post Hc Hne (ends_token_boundary _ He)) as Hh.
  split.
  - rewrite (search_quiet pre _ Hq). exact (search_match _ _ _ Hh).
  - rewrite (sub_quiet _ pre _ Hq), (sub_match _ _ _ _ Hh).
    destruct (no_token post Hpost) as [Hid _]. rewrite Hid.
    now rewrite append_assoc.
Qed.

Lemma main_from_write_not_updated (w w' : world) (v : string) :
  update_version_in_library_properties v w = (Ok false, w') ->
  main_from_write v w = (Raised (SystemExit 1), w').
Proof.
  intros H. unfold main_from_write, bind. now rewrite H.
Qed.

End FileClaimFacts.

Section FileClaims.
Import Str StrFacts Re ReFacts ReMore TextIO TextIOFacts FileFacts.
Import FileClaimFacts.
Local Open Scope string_scope.

(** C2, as the claim has it, fails, in four ways.  (1) On a POSIX
    system a file with [\r\n] line ends has one version assignment, and
    writing [1.3.0] rewrites its other line too: no text around the
    token is common to the file before and after.  (2) A new version
    with a blank in it is not what is read back.  (3) In a file whose
    other line is [my_version=2.0], one line is the version assignment,
    yet the version read is [2.0], the write changes both lines, and the
    version read afterwards comes from the other line.  (4) After the
    empty version is written no version is read: the read ends the
    process with status 1. *)
Lemma write_changes_line_ends :
  let stored := "name=B" ++ Scenario.crlf ++ "version=1.2.3" ++ Scenario.crlf in
  let w := Scenario.posix_world (Some stored) [] [] in
  let w' := snd (update_version_in_library_properties "1.3.0" w) in
  (mentions (decode_newlines stored) = 1
   /\ library_properties w'
      = Some ("name=B" ++ Scenario.lf ++ "version=1.3.0" ++ Scenario.lf)
   /\ ~ exists pre tok post after,
          stored = pre ++ "version=" ++ tok ++ post
          /\ library_properties w' = Some after
          /\ after = pre ++ "version=" ++ "1.3.0" ++ post)
  /\ (let u := Scenario.posix_world
                 (Some ("version=1.2.3" ++ Scenario.lf)) [] [] in
      let u' := snd (update_version_in_library_properties "1.3 rc" u) in
      library_properties u' = Some ("version=1.3 rc" ++ Scenario.lf)
      /\ fst (get_current_version u') = Ok "1.3")
  /\ (let text := "my_version=2.0" ++ Scenario.lf ++ "version=1.0"
                  ++ Scenario.lf in
      let u := Scenario.posix_world (Some text) [] [] in
      let u' := snd (update_version_in_library_properties "1.1" u) in
      map (String.prefix "version=") (split LF text)
      = [false; true; false]
      /\ fst (get_current_version u) = Ok "2.0"
      /\ library_properties u'
         = Some ("my_version=1.1" ++ Scenario.lf ++ "version=1.1"
                 ++ Scenario.lf))
  /\ (let u := Scenario.posix_world
                 (Some ("version=1.2.3" ++ Scenario.lf)) [] [] in
      let u' := snd (update_version_in_library_properties "" u) in
      library_properties u' = Some ("version=" ++ Scenario.lf)
      /\ fst (get_current_version u') = Raised (SystemExit 1)).
Proof.
  cbv zeta.
  split; [split; [reflexivity | split; [reflexivity|]]
         | split; [split; reflexivity
                  | split; [split; [reflexivity | split; reflexivity]
                           | split; reflexivity]]].
  intros (pre & tok & post & after & H1 & Hafter & H2).
  vm_compute in Hafter. injection Hafter as <-.
  vm_compute in H1.
  do 7 (destruct pre as [|? pre]; cbn in H1, H2;
        [discriminate H1
        | injection H1 as ? H1; injection H2 as ? H2; subst;
          try discriminate]).
Qed.

(** C2, amended.  Take a file that text mode reads and rewrites as it is
    (its line ends are those of the platform), whose text is [pre], then
    the assignment [version=tok] at the start of a line, then [post],
    where [tok] is not empty, holds no whitespace and is followed by
    whitespace or by the end of the file, and where this is the only
    place of the text at which [version=] is followed by a character
    that is not whitespace; and take a new version that is not empty and
    holds no whitespace and no backslash.  Then the version read before
    is [tok]; the write leaves in the file the bytes that stood before
    the token, the new version, and the bytes that stood after the
    token; and the version read afterwards is the new version. *)
Theorem write_then_read (w : world)
    (stored pre tok post new_version : string) :
  library_properties w = Some stored ->
  encode_newlines (os w) (decode_newlines stored) = stored ->
  decode_newlines stored = pre ++ "version=" ++ tok ++ post ->
  at_line_start pre = true ->
  is_token tok = true ->
  ends_token post = true ->
  mentions (decode_newlines stored) = 1 ->
  writable_version new_version = true ->
  exists updated w',
    update_version_in_library_properties new_version w = (Ok updated, w')
    /\ stored = encode_newlines (os w) pre ++ "version=" ++ tok
                ++ encode_newlines (os w) post
    /\ library_properties w'
       = Some (encode_newlines (os w) pre ++ "version=" ++ new_version
               ++ encode_newlines (os w) post)
    /\ get_current_version w = (Ok tok, w)
    /\ get_current_version w' = (Ok new_version, w')
    /\ console w' = console w /\ issued w' = issued w.
Proof.
  intros Hfile Hstable Ec _ Htok Hend Hone Hw.
  destruct (writable_version_plain _ Hw) as (Hclass & Hne & Hback).
  destruct (is_token_class _ Htok) as [Htc _].
  rewrite Ec in Hone.
  destruct (one_assignment pre tok post new_version Htok Hend Hone)
    as [Hsearch Hnew].
  rewrite <- Ec in Hsearch, Hnew.
  pose proof (decode_no_CR stored) as Hcr. rewrite Ec in Hcr.
  rewrite !all_chars_append in Hcr.
  apply andb_true_iff in Hcr as [Hpre Hcr].
  apply andb_true_iff in Hcr as [_ Hcr].
  apply andb_true_iff in Hcr as [_ Hpost].
  assert (Hcr' : all_chars not_CR (pre ++ "version=" ++ new_version ++ post)
                 = true).
  { rewrite !all_chars_append, Hpre, Hpost, (class_no_CR _ Hclass).
    reflexivity. }
  assert (Hstored : stored = encode_newlines (os w) pre ++ "version="
                             ++ tok ++ encode_newlines (os w) post).
  { rewrite <- Hstable at 1. rewrite Ec, !encode_append.
    now rewrite (encode_class _ tok Htc). }
  assert (Henc : encode_newlines (os w)
                   (pre ++ "version=" ++ new_version ++ post)
                 = encode_newlines (os w) pre ++ "version="
                   ++ new_version ++ encode_newlines (os w) post).
  { rewrite !encode_append. now rewrite (encode_class _ _ Hclass). }
  rewrite (update_present w stored new_version Hfile Hback). cbv zeta.
  rewrite Hnew.
  destruct (String.eqb_spec (pre ++ "version=" ++ new_version ++ post)
              (decode_newlines stored)) as [Eq|Hneq].
  - exists false, w.
    split; [reflexivity|]. split; [exact Hstored|].
    split.
    { rewrite Hfile. f_equal. rewrite <- Henc, Eq. now symmetry. }
    split; [exact (get_current_version_present w stored tok Hfile Hsearch)|].
    split; [|split; reflexivity].
    apply (get_current_version_present w stored new_version Hfile).
    rewrite Hsearch. f_equal.
    rewrite Ec in Eq.
    apply (f_equal (drop (String.length pre))) in Eq.
    rewrite !drop_append in Eq.
    apply (f_equal (drop 8)) in Eq. cbn [drop append] in Eq.
    destruct (is_token_class _ Htok) as [Ha Hea].
    exact (eq_sym (proj1 (class_run_unique _ _ _ _ Hclass Ha
                            (ends_token_boundary _ Hend)
                            (ends_token_boundary _ Hend) Eq))).
  - eexists true, _.
    split; [reflexivity|]. split; [exact Hstored|].
    split; [cbn [library_properties set_library_properties];
            now rewrite Henc|].
    split; [exact (get_current_version_present w stored tok Hfile Hsearch)|].
    split; [|split; reflexivity].
    eapply get_current_version_present; [reflexivity|].
    rewrite (decode_encode _ _ Hcr').
    destruct (mentions_once pre tok post Htok Hone) as [Hq _].
    rewrite (search_quiet pre _ Hq).
    exact (search_match _ _ _
             (match_here_run new_version post Hclass Hne
                (ends_token_boundary _ Hend))).
Qed.

(** The theorem at a properties file of three lines. *)
Lemma write_then_read_witness :
  let stored := "name=Basicmicro" ++ Scenario.lf ++ "version=1.2.3"
                ++ Scenario.lf ++ "author=x" ++ Scenario.lf in
  let w := Scenario.posix_world (Some stored) [] [] in
  exists updated w',
    update_version_in_library_properties "1.3.0" w = (Ok updated, w')
    /\ stored = encode_newlines (os w) ("name=Basicmicro" ++ Scenario.lf)
                ++ "version=" ++ "1.2.3"
                ++ encode_newlines (os w)
                     (Scenario.lf ++ "author=x" ++ Scenario.lf)
    /\ library_properties w'
       = Some (encode_newlines (os w) ("name=Basicmicro" ++ Scenario.lf)
               ++ "version=" ++ "1.3.0"
               ++ encode_newlines (os w)
                    (Scenario.lf ++ "author=x" ++ Scenario.lf))
    /\ get_current_version w = (Ok "1.2.3", w)
    /\ get_current_version w' = (Ok "1.3.0", w')
    /\ console w' = console w /\ issued w' = issued w.
Proof.
  cbv zeta.
  apply (write_then_read
           (Scenario.posix_world
              (Some ("name=Basicmicro" ++ Scenario.lf ++ "version=1.2.3"
                     ++ Scenario.lf ++ "author=x" ++ Scenario.lf)) [] [])
           _ ("name=Basicmicro" ++ Scenario.lf) "1.2.3"
           (Scenario.lf ++ "author=x" ++ Scenario.lf) "1.3.0");
    reflexivity.
Defined.

Example write_minor_bump :
  let w := Scenario.posix_world
             (Some ("name=B" ++ Scenario.lf ++ "version=1.2.3" ++ Scenario.lf))
             [] [] in
  library_properties (snd (update_version_in_library_properties "1.3.0" w))
  = Some ("name=B" ++ Scenario.lf ++ "version=1.3.0" ++ Scenario.lf).
Proof. reflexivity. Qed.

(** On Windows a file with [\r\n] line ends is rewritten with them. *)
Example write_on_windows :
  let stored v := "name=B" ++ Scenario.crlf ++ "version=" ++ v
                  ++ Scenario.crlf in
  let w := Scenario.on_windows
             (Scenario.posix_world (Some (stored "1.2.3")) [] []) in
  encode_newlines (os w) (decode_newlines (stored "1.2.3")) = stored "1.2.3"
  /\ library_properties (snd (update_version_in_library_properties "1.3.0" w))
     = Some (stored "1.3.0").
Proof. split; reflexivity. Qed.

(** C6: the code departs from the claim, and from its own message.  The
    file holds the token [1.2.3] and the version written is [1.2.3]:
    the pattern matches, the substituted text is the text read, and
    line 60 takes that for no match, so the function returns [False]
    (and prints that no version was found); written with another
    version, the same file gives [True]. *)
Lemma update_same_version_returns_false :
  let w := Scenario.posix_world
             (Some ("version=1.2.3" ++ Scenario.lf)) [] [] in
  search (decode_newlines ("version=1.2.3" ++ Scenario.lf)) = Some "1.2.3"
  /\ tokens (decode_newlines ("version=1.2.3" ++ Scenario.lf)) = ["1.2.3"]
  /\ update_version_in_library_properties "1.2.3" w = (Ok false, w)
  /\ main_from_write "1.2.3" w = (Raised (SystemExit 1), w)
  /\ fst (update_version_in_library_properties "1.2.4" w) = Ok true.
Proof. repeat split. Qed.

Example update_no_version_line :
  let w := Scenario.posix_world (Some ("name=B" ++ Scenario.lf)) [] [] in
  update_version_in_library_properties "1.3.0" w = (Ok false, w).
Proof. reflexivity. Qed.

End FileClaims.

(* ===================================================================== *)
(** * The claims on the run of the script *)
(* ===================================================================== *)


Module PushFacts.
Import RunFacts.
Local Open Scope string_scope.







End PushFacts.

Section RunClaims.
Import RunFacts DeclineFacts PushFacts.
Local Open Scope string_scope.

(** C9.  When [git status --porcelain] reports nothing,
    [commit_and_push_changes] returns [False] and that status command is
    the one command it has run: no add, no commit, no push; the file and
    the console are as they were. *)
Theorem nothing_to_commit
    (commit_message : string) (w : world) (result : CompletedProcess) :
  shell w (issued w) "git status --porcelain" = Some result ->
  Str.strip (stdout result) = "" ->
  commit_and_push_changes commit_message w
  = (Ok false, set_issued w (issued w ++ ["git status --porcelain"])%list).
Proof.
  intros Hs Hout.
  unfold commit_and_push_changes, try_except, bind.
  rewrite run_command_spec, Hs. cbn [andb]. now rewrite Hout.
Qed.

(** The theorem in a clean working tree. *)
Lemma nothing_to_commit_witness :
  let w := Scenario.posix_world None []
             [("git status --porcelain", Scenario.completed 0 "  " "")] in
  commit_and_push_changes "Bump version to 1.2.4" w
  = (Ok false, set_issued w ["git status --porcelain"]).
Proof.
  cbv zeta.
  exact (nothing_to_commit "Bump version to 1.2.4"
           (Scenario.posix_world None []
              [("git status --porcelain", Scenario.completed 0 "  " "")])
           (Scenario.completed 0 "  " "") eq_refl eq_refl).
Defined.



(** A whole run in which upstream rejects the push: status 1, and the
    push to upstream is the last command. *)
Example run_upstream_rejects :
  let w := Scenario.posix_world
             (Some ("version=1.2.3" ++ Scenario.lf)) ["patch"; ""; ""; ""]
             (Scenario.dirty_tree ++ Scenario.remotes_listed
              ++ [("git push upstream main",
                   Scenario.completed 1 "" "rejected")])%list in
  fst (run_script w) = 1%Z
  /\ issued (snd (run_script w))
     = (["git rev-parse --git-dir"; "git remote -v"]
        ++ firstn 5 (push_script "Bump version to 1.2.4"))%list.
Proof. split; reflexivity. Qed.

(** A whole run in which every command succeeds. *)
Example run_release :
  let w := Scenario.posix_world
             (Some ("version=1.2.3" ++ Scenario.lf)) ["patch"; ""; ""; ""]
             (Scenario.dirty_tree ++ Scenario.remotes_listed)%list in
  fst (run_script w) = 0%Z
  /\ issued (snd (run_script w))
     = (["git rev-parse --git-dir"; "git remote -v"]
        ++ push_script "Bump version to 1.2.4"
        ++ [release_command "1.2.4" ""])%list
  /\ library_properties (snd (run_script w))
     = Some ("version=1.2.4" ++ Scenario.lf).
Proof. repeat split. Qed.

(** C3: the run reaches the release, [gh release create] exits with
    status 1, and the script exits with status 1, after the commit and
    both pushes. *)
Lemma release_failure_exit_status :
  let w := Scenario.posix_world
             (Some ("name=B" ++ Scenario.lf ++ "version=1.2.3" ++ Scenario.lf))
             ["minor"; "y"; ""; "notes"]
             (Scenario.dirty_tree ++ Scenario.remotes_listed
              ++ [(release_command "1.3.0" "notes",
                   Scenario.completed 1 "" "HTTP 401")])%list in
  fst (run_script w) = 1%Z
  /\ issued (snd (run_script w))
     = (["git rev-parse --git-dir"; "git remote -v"]
        ++ push_script "Bump version to 1.3.0"
        ++ [release_command "1.3.0" "notes"])%list
  /\ library_properties (snd (run_script w))
     = Some ("name=B" ++ Scenario.lf ++ "version=1.3.0" ++ Scenario.lf).
Proof. repeat split. Qed.

(** C7: [git remote -v] lists no remote, [git remote add upstream]
    exits with status 3, and the script exits with status 1 at once: the
    version is not read, nothing more is asked or run. *)
Lemma remote_add_failure_exit_status :
  let w := Scenario.posix_world
             (Some ("version=1.2.3" ++ Scenario.lf))
             ["minor"; "y"; ""; "notes"]
             [("git remote -v", Scenario.completed 0 "" "");
              ("git remote add upstream " ++ UPSTREAM_URL,
               Scenario.completed 3 "" "error: could not lock config file")] in
  fst (setup_remotes w) = Raised (SystemExit 1)
  /\ fst (run_script w) = 1%Z
  /\ issued (snd (run_script w))
     = ["git rev-parse --git-dir"; "git remote -v";
        "git remote add upstream " ++ UPSTREAM_URL]
  /\ console (snd (run_script w)) = ["minor"; "y"; ""; "notes"].
Proof. repeat split. Qed.

(** C8, as the claim has it, fails: there is no [library.properties],
    the user declines to continue, and the script exits with status 1. *)
Lemma decline_format_prompt_exit_status :
  let w := Scenario.posix_world None ["n"] [] in
  declines "n" = true
  /\ check_arduino_library_format (ran w "git rev-parse --git-dir")
     = (Ok false, set_console (ran w "git rev-parse --git-dir") [])
  /\ fst (run_script w) = 1%Z.
Proof. repeat split. Qed.

(** C8, amended.  A user who declines at the confirmation of the new
    version, in a run of [main] that has come to that prompt, ends the
    script with status 0, and the file is what it was when the script
    started.  A user who declines to continue without
    [library.properties] ends it with status 1; there is no file then,
    and none is made. *)
Theorem decline_exits (w : world) (answer : string) (rest : list string) :
  declines answer = true ->
  (forall w4 new_version,
     reaches_confirmation w w4 new_version ->
     console w4 = answer :: rest ->
     main w = (Raised (SystemExit 0), set_console w4 rest)
     /\ fst (run_script w) = 0%Z
     /\ library_properties (snd (run_script w)) = library_properties w
     /\ issued (snd (run_script w)) = issued w4)
  /\ (forall result,
        library_properties w = None ->
        console w = answer :: rest ->
        shell w (issued w) "git rev-parse --git-dir" = Some result ->
        returncode result = 0%Z ->
        exists w',
          main w = (Raised (SystemExit 1), w')
          /\ fst (run_script w) = 1%Z
          /\ library_properties w' = None).
Proof.
  intros Hd. split.
  - intros w4 new_version Hr Hc.
    pose proof (Path.main_at_confirmation w w4 new_version Hr) as Hm.
    rewrite (main_from_confirmation_declined new_version w4 answer rest Hc Hd)
      in Hm.
    unfold run_script. rewrite Hm. cbn [fst snd exit_status].
    split; [reflexivity|]. split; [reflexivity|].
    split; [|reflexivity].
    cbn [library_properties set_console].
    exact (Path.file_at_confirmation w w4 new_version Hr).
  - intros result Hf Hc Hs Hrc.
    exists (set_console (ran w "git rev-parse --git-dir") rest).
    unfold run_script.
    rewrite (main_format_declined w answer rest result Hf Hc Hd Hs Hrc).
    repeat split. exact Hf.
Qed.

(** The theorem at two whole runs with the answer [no]: one with the
    file holding [1.2.3], declined at the confirmation of [1.2.4], and
    one without the file, declined at the format prompt. *)
Lemma decline_exits_witness :
  let stored := "version=1.2.3" ++ Scenario.lf in
  let w := Scenario.posix_world (Some stored) ["patch"; "no"]
             Scenario.remotes_listed in
  let u := Scenario.posix_world None ["no"] [] in
  (fst (run_script w) = 0%Z
   /\ library_properties (snd (run_script w)) = Some stored)
  /\ exists u',
       main u = (Raised (SystemExit 1), u')
       /\ fst (run_script u) = 1%Z
       /\ library_properties u' = None.
Proof.
  cbv zeta. split.
  - refine ((fun H => conj (proj1 (proj2 H)) (proj1 (proj2 (proj2 H))))
              (proj1 (decline_exits
                        (Scenario.posix_world
                           (Some ("version=1.2.3" ++ Scenario.lf))
                           ["patch"; "no"] Scenario.remotes_listed)
                        "no" [] eq_refl) _ "1.2.4" _ _)).
    + exists "1.2.3", "patch". split; [|reflexivity].
      eexists _, _, "patch". split.
      { do 4 eexists. split; [reflexivity|]. split; reflexivity. }
      split; [reflexivity|]. split; reflexivity.
    + reflexivity.
  - exact (proj2 (decline_exits (Scenario.posix_world None ["no"] []) "no" []
                    eq_refl)
             (Scenario.completed 0 "" "") eq_refl eq_refl eq_refl eq_refl).
Defined.

(** A whole run in which the new version is declined: status 0, the file
    as it was, no command after the remotes were listed. *)
Example run_declined :
  let stored := "version=1.2.3" ++ Scenario.lf in
  let w := Scenario.posix_world (Some stored) ["patch"; "no"]
             Scenario.remotes_listed in
  fst (run_script w) = 0%Z
  /\ library_properties (snd (run_script w)) = Some stored
  /\ issued (snd (run_script w))
     = ["git rev-parse --git-dir"; "git remote -v"].
Proof. repeat split. Qed.

(** A version whose third component is no number stops a patch bump
    with the traceback of [ValueError], status 1, the file as it was; a
    version whose first component is no number is patch-bumped and
    written. *)
Example run_unparsed_component :
  let w stored := Scenario.posix_world (Some stored) ["patch"; "y"; ""; ""]
                    (Scenario.dirty_tree ++ Scenario.remotes_listed)%list in
  main (w ("version=1.2.x" ++ Scenario.lf))
  = (Raised ValueError,
     set_console
       (set_issued (w ("version=1.2.x" ++ Scenario.lf))
          ["git rev-parse --git-dir"; "git remote -v"])
       ["y"; ""; ""])
  /\ fst (run_script (w ("version=1.2.x" ++ Scenario.lf))) = 1%Z
  /\ fst (run_script (w ("version=x.2.3" ++ Scenario.lf))) = 0%Z
  /\ library_properties (snd (run_script (w ("version=x.2.3" ++ Scenario.lf))))
     = Some ("version=x.2.4" ++ Scenario.lf).
Proof. repeat split. Qed.

End RunClaims.
